(** * pyRevit bootstrap layer: host identity, file prefixes, logging setup

    A shallow embedding of [pyrevitlib/pyrevit/__init__.py] and
    [pyrevitlib/pyrevit/coreutils/logger.py].  Python strings are
    [string], Python ints are [Z], dicts are [gmap], raised exceptions are
    the [Raise] branch of [Result], and the mutable module globals of
    [logger.py] together with the state of the [logging] package are
    threaded explicitly as a [World]. *)

From Stdlib Require Import ZArith Ascii String List Lia.
From stdpp Require Import base option list gmap strings pretty.

Local Open Scope string_scope.
Local Open Scope Z_scope.

(** ** Python runtime pieces used by both modules *)

(** Exceptions that travel through the modelled code.  An [OSError] and a
    .NET [IOException] carry their rendering ([str(err)]). *)
Inductive Exn :=
| OSError (rendered : string)
| IOException (rendered : string)
| IndexError
| ValueError
| AttributeError
| PyRevitException (message : string)
| OtherError (rendered : string).

Inductive Result (A : Type) :=
| Ok (a : A)
| Raise (e : Exn).
Arguments Ok {A} a.
Arguments Raise {A} e.

#[global] Instance result_ret : MRet Result := fun _ a => Ok a.

#[global] Instance result_bind : MBind Result := fun _ _ k m =>
  match m with
  | Ok a => k a
  | Raise e => Raise e
  end.

#[global] Instance result_fmap : FMap Result := fun _ _ f m =>
  match m with
  | Ok a => Ok (f a)
  | Raise e => Raise e
  end.

(** [try: body except: handler] with a bare [except]. *)
Definition try_except {A} (body : Result A) (handler : Result A) : Result A :=
  match body with
  | Ok a => Ok a
  | Raise _ => handler
  end.

Definition raises {A} (r : Result A) : Prop := exists e, r = Raise e.

Definition newline : string := String "010" "".

(** [template.format(args...)] for templates whose only replacement fields
    are the auto-numbered ["{}"]; the arguments are already rendered.  A
    field without an argument is Python's [IndexError]; a brace that is not
    part of ["{}"] does not occur in the templates of this code base and is
    refused with [ValueError]. *)
Fixpoint format (template : string) (args : list string) : Result string :=
  match template with
  | EmptyString => Ok EmptyString
  | String "{" (String "}" rest) =>
      match args with
      | a :: args' => String.append a <$> format rest args'
      | [] => Raise IndexError
      end
  | String "{" _ => Raise ValueError
  | String "}" _ => Raise ValueError
  | String c rest => String c <$> format rest args
  end.

(** [s.split(sep)] for a one-character separator: the list of the maximal
    pieces between separators, never empty. *)
Fixpoint split (sep : ascii) (s : string) : list string :=
  match s with
  | EmptyString => [EmptyString]
  | String c rest =>
      if Ascii.eqb c sep then EmptyString :: split sep rest
      else match split sep rest with
           | piece :: pieces => String c piece :: pieces
           | [] => [String c EmptyString]
           end
  end.

(** [s.replace(old, new)] for a one-character [old]. *)
Fixpoint replace (old : ascii) (new : string) (s : string) : string :=
  match s with
  | EmptyString => EmptyString
  | String c rest =>
      if Ascii.eqb c old then new +:+ replace old new rest
      else String c (replace old new rest)
  end.

(** [str(n)] for an int. *)
Definition str_int (n : Z) : string := pretty n.

(** ** [pyrevit/__init__.py] *)

Definition PYREVIT_ADDON_NAME : string := "pyRevit".
Definition TRACEBACK_TITLE : string := "Traceback:".

(** The injected host handles read by [_HostApplication]:
    [__revit__.Application.VersionNumber], [__revit__.Application.Username]
    and [Process.GetCurrentProcess().Id]. *)
Record HostApplication := {
  VersionNumber : string;
  Username : string;
  ProcessId : Z;
}.

Definition version (h : HostApplication) : string := VersionNumber h.

Definition username (h : HostApplication) : string :=
  let uname := Username h in
  let uname := hd EmptyString (split "@" uname) in
  let uname := replace "." "" uname in
  uname.

Definition proc_id (h : HostApplication) : Z := ProcessId h.

(** The three prefixes of lines 246-253; [None] is Python's [None] of the
    documentation mode.  A [format] that fails would abort the import. *)
Record FilePrefixes := {
  PYREVIT_FILE_PREFIX_UNIVERSAL : option string;
  PYREVIT_FILE_PREFIX : option string;
  PYREVIT_FILE_PREFIX_STAMPED : option string;
}.

Definition file_prefixes (doc_mode : bool) (h : HostApplication)
  : Result FilePrefixes :=
  if doc_mode then
    Ok {| PYREVIT_FILE_PREFIX_UNIVERSAL := None;
          PYREVIT_FILE_PREFIX := None;
          PYREVIT_FILE_PREFIX_STAMPED := None |}
  else
    universal ← format "{}_{}" [PYREVIT_ADDON_NAME; username h];
    prefix ← format "{}_{}_{}" [PYREVIT_ADDON_NAME; version h; username h];
    stamped ← format "{}_{}_{}_{}"
                [PYREVIT_ADDON_NAME; version h; username h; str_int (proc_id h)];
    Ok {| PYREVIT_FILE_PREFIX_UNIVERSAL := Some universal;
          PYREVIT_FILE_PREFIX := Some prefix;
          PYREVIT_FILE_PREFIX_STAMPED := Some stamped |}.

(** *** Application-data directories (lines 237-243)

    [op.isdir] and [os.mkdir] belong to the operating system; the loop is
    modelled over any file system that answers them.  [mkdir] either yields
    the changed file system or raises. *)
Class FileSystem := {
  FS : Type;
  isdir : FS -> string -> bool;
  mkdir : FS -> string -> Result FS;
}.

Record ImportState `{FileSystem} := {
  fs : FS;
  sys_path : list string;
}.

Section AppDirs.
Context `{FileSystem}.

(** [for pyrvt_app_dir in dirs: ...]; only [OSError] and [IOException] are
    caught, any other exception of [os.mkdir] propagates as it is. *)
Fixpoint ensure_app_dirs (dirs : list string) (st : ImportState)
  : Result ImportState :=
  match dirs with
  | [] => Ok st
  | pyrvt_app_dir :: rest =>
      if isdir (fs st) pyrvt_app_dir then ensure_app_dirs rest st
      else
        match mkdir (fs st) pyrvt_app_dir with
        | Ok fs' =>
            ensure_app_dirs rest
              {| fs := fs'; sys_path := sys_path st ++ [pyrvt_app_dir] |}
        | Raise (OSError err) | Raise (IOException err) =>
            message ← format "Can not access pyRevit folder at: {} | {}"
                             [pyrvt_app_dir; err];
            Raise (PyRevitException message)
        | Raise e => Raise e
        end
  end.
End AppDirs.

(** A file system on which nothing exists and every [mkdir] is denied. *)
Definition locked_fs : FileSystem :=
  {| FS := unit;
     isdir := fun _ _ => false;
     mkdir := fun _ _ => Raise (OSError "[Errno 13] Permission denied") |}.

(** *** [PyRevitException.__str__] (lines 31-41)

    A Python object as this method observes it: the outcomes of [str(v)],
    of [format(v, '')] (what a ["{}"] field calls) and of [repr(v)]. *)
Record PyVal := {
  py_str : Result string;
  py_format : Result string;
  py_repr : Result string;
}.

(** The exception instance ([self.args]) and the traceback of the exception
    being handled, as [sys.exc_info()] reports it: [None] outside of an
    [except] block, otherwise the formatted entries that
    [traceback.format_tb] returns, one per frame. *)
Record ExcState := {
  args : list PyVal;
  exc_traceback : option (list string);
}.

Definition format_tb (tb : option (list string)) : list string :=
  match tb with
  | None => []
  | Some entries => entries
  end.

(** [l[0]] *)
Definition index0 {A} (l : list A) : Result A :=
  match l with
  | x :: _ => Ok x
  | [] => Raise IndexError
  end.

Fixpoint join (sep : string) (pieces : list string) : string :=
  match pieces with
  | [] => ""
  | [p] => p
  | p :: rest => p +:+ sep +:+ join sep rest
  end.

Fixpoint sequence_results {A} (rs : list (Result A)) : Result (list A) :=
  match rs with
  | [] => Ok []
  | r :: rest => x ← r; xs ← sequence_results rest; Ok (x :: xs)
  end.

(** [str(t)] for a tuple [t] of two or more items. *)
Definition str_tuple (items : list PyVal) : Result string :=
  reprs ← sequence_results (py_repr <$> items);
  Ok ("(" +:+ join ", " reprs +:+ ")").

(** [Exception.__str__(self)] of Python 2: the empty string without
    arguments, [str(args[0])] with one, [str(args)] otherwise. *)
Definition Exception_str (self : ExcState) : Result string :=
  match args self with
  | [] => Ok ""
  | [a] => py_str a
  | _ => str_tuple (args self)
  end.

(** The [try] body of [__str__]: the report built from the first traceback
    entry and, when there is one, the first argument.  The statement before
    the [try] stores [sys.exc_info()] in [sys]; of the three values only
    [sys.exc_traceback] is read, here [exc_traceback self]. *)
Definition format_report (self : ExcState) : Result string :=
  tb_report ← index0 (format_tb (exc_traceback self));
  match args self with
  | message :: _ =>
      message ← py_format message;
      format ("{}" +:+ newline +:+ newline +:+ "{}" +:+ newline +:+ "{}")
             [message; TRACEBACK_TITLE; tb_report]
  | [] =>
      format ("{}" +:+ newline +:+ "{}") [TRACEBACK_TITLE; tb_report]
  end.

Definition PyRevitException_str (self : ExcState) : Result string :=
  try_except (format_report self) (Exception_str self).

(** An object whose [__str__] raises [ValueError]; the inherited
    [__format__] calls [str(self)] and raises with it. *)
Definition unprintable : PyVal :=
  {| py_str := Raise ValueError;
     py_format := Raise ValueError;
     py_repr := Ok "<Unprintable object>" |}.

(** ** [pyrevit/coreutils/logger.py] *)

(** The numeric levels of the [logging] package. *)
Definition NOTSET : Z := 0.
Definition DEBUG : Z := 10.
Definition INFO : Z := 20.
Definition WARNING : Z := 30.
Definition ERROR : Z := 40.
Definition CRITICAL : Z := 50.

Definition DEBUG_ISC_NAME : string := PYREVIT_ADDON_NAME +:+ "_debugISC".
Definition VERBOSE_ISC_NAME : string := PYREVIT_ADDON_NAME +:+ "_verboseISC".

Definition RUNTIME_FILE_LOGGING_LEVEL : Z := DEBUG.

(** Modelled from the spec: [pyrevit.coreutils.envvars] is not among the
    sources.  The glossary describes a session-scoped environment variable
    as an OS-level variable that passes the debug/verbose flags between
    scripts of one host process: a store in which [set_pyrevit_env_var]
    writes a value under a name and [get_pyrevit_env_var] reads back the
    value last written, [None] when there is none. *)
Definition set_pyrevit_env_var (param_name : string) (param_value : bool)
  (env : gmap string bool) : gmap string bool :=
  <[param_name := param_value]> env.

Definition get_pyrevit_env_var (param_name : string) (env : gmap string bool)
  : option bool :=
  env !! param_name.

(** Truth value of what [get_pyrevit_env_var] returned. *)
Definition truthy (v : option bool) : bool :=
  match v with
  | Some b => b
  | None => false
  end.

(** [EXEC_PARAMS.doc_mode] and [EXEC_PARAMS.forced_debug_mode]. *)
Record ExecParams := {
  doc_mode : bool;
  forced_debug_mode : bool;
}.

(** [RUNTIME_LOGGING_LEVEL] as the module body leaves it (lines 14, 34-47):
    one assignment after the other, a later one overriding an earlier one. *)
Definition runtime_logging_level (params : ExecParams) (env : gmap string bool)
  : Z :=
  let level := WARNING in
  if negb (doc_mode params) then
    let level :=
      if truthy (get_pyrevit_env_var VERBOSE_ISC_NAME env) then INFO else level in
    let level :=
      if truthy (get_pyrevit_env_var DEBUG_ISC_NAME env) then DEBUG else level in
    let level :=
      if forced_debug_mode params then DEBUG else level in
    level
  else level.

(** *** [LoggerWrapper.getEffectiveLevel] (lines 75-90)

    The method only reads: a logger is seen as its own level, the levels of
    its handlers in list order, and its parent ([None] above the root). *)
Unset Elimination Schemes.
Inductive LoggerNode := {
  node_level : Z;
  node_handlers : list Z;
  node_parent : option LoggerNode;
}.
Set Elimination Schemes.

Fixpoint LoggerNode_ind (P : LoggerNode -> Prop)
    (Hroot : forall lvl hs, P (Build_LoggerNode lvl hs None))
    (Hchild : forall lvl hs p, P p -> P (Build_LoggerNode lvl hs (Some p)))
    (logger : LoggerNode) : P logger :=
  match logger with
  | Build_LoggerNode lvl hs None => Hroot lvl hs
  | Build_LoggerNode lvl hs (Some p) =>
      Hchild lvl hs p (LoggerNode_ind P Hroot Hchild p)
  end.

(** The [for hndlr in logger.handlers] loop. *)
Definition lowest_handler_level (handler_levels : list Z) : Z :=
  fold_left (fun eff_level hndlr_level =>
               if hndlr_level <? eff_level then hndlr_level else eff_level)
            handler_levels CRITICAL.

Fixpoint getEffectiveLevel (logger : LoggerNode) : Z :=
  match logger with
  | Build_LoggerNode level hndlrs parent =>
      if (0 <? length hndlrs)%nat then lowest_handler_level hndlrs
      else if negb (level =? 0) then level
      else match parent with
           | Some logger' => getEffectiveLevel logger'
           | None => NOTSET
           end
  end.

(** The logger followed by its ancestors, nearest first. *)
Fixpoint chain (logger : LoggerNode) : list LoggerNode :=
  match logger with
  | Build_LoggerNode _ _ None => [logger]
  | Build_LoggerNode _ _ (Some p) => logger :: chain p
  end.

(** The least of [first] and [others]. *)
Definition least (first : Z) (others : list Z) : Z := foldr Z.min first others.

(** The effective level in the words of the specification: the least
    handler level of the nearest logger of the chain that has a handler;
    without any such logger the first non-zero logger level of the chain;
    [NOTSET] without that either. *)
Definition spec_effective_level (logger : LoggerNode) : Z :=
  match List.find (fun g => bool_decide (node_handlers g <> [])) (chain logger) with
  | Some g =>
      match node_handlers g with
      | first :: others => least first others
      | [] => NOTSET
      end
  | None =>
      match List.find (fun g => bool_decide (node_level g <> 0)) (chain logger) with
      | Some g => node_level g
      | None => NOTSET
      end
  end.

(** Loggers on which the code and the wording above part ways. *)
Definition warning_parent : LoggerNode :=
  {| node_level := NOTSET; node_handlers := [WARNING]; node_parent := None |}.

Definition debug_child : LoggerNode :=
  {| node_level := DEBUG; node_handlers := [];
     node_parent := Some warning_parent |}.

Definition loud_logger : LoggerNode :=
  {| node_level := NOTSET; node_handlers := [60]; node_parent := None |}.

(** *** Handlers, loggers and the module state

    The module owns two handler objects shared by every logger. *)
Inductive Hndlr := stdout_hndlr | file_hndlr.

#[global] Instance Hndlr_eq_dec : EqDecision Hndlr.
Proof. solve_decision. Defined.

(** A logger object of the [logging] package, as far as this module
    touches it. *)
Record Logger := {
  name : string;
  level : Z;
  handlers : list Hndlr;
  propagate : bool;
}.

(** Logger objects live in [heap]; a logger instance is its address there,
    so that two references are the same instance exactly when the addresses
    are equal.  Address 0 holds [logging.root].  [loggerDict] is the name
    table of [logging.Logger.manager]; [loggers] is the registry dict of
    this module. *)
Record World := {
  envvars : gmap string bool;
  RUNTIME_LOGGING_LEVEL : Z;
  FILE_LOGGING_STATUS : bool;
  stdout_level : Z;
  file_level : Z;
  heap : list Logger;
  loggerDict : gmap string nat;
  loggers : gmap string nat;
}.

Definition with_envvars (env : gmap string bool) (w : World) : World :=
  {| envvars := env;
     RUNTIME_LOGGING_LEVEL := RUNTIME_LOGGING_LEVEL w;
     FILE_LOGGING_STATUS := FILE_LOGGING_STATUS w;
     stdout_level := stdout_level w; file_level := file_level w;
     heap := heap w; loggerDict := loggerDict w; loggers := loggers w |}.

Definition with_file_logging_status (status : bool) (w : World) : World :=
  {| envvars := envvars w;
     RUNTIME_LOGGING_LEVEL := RUNTIME_LOGGING_LEVEL w;
     FILE_LOGGING_STATUS := status;
     stdout_level := stdout_level w; file_level := file_level w;
     heap := heap w; loggerDict := loggerDict w; loggers := loggers w |}.

Definition with_heap (h : list Logger) (w : World) : World :=
  {| envvars := envvars w;
     RUNTIME_LOGGING_LEVEL := RUNTIME_LOGGING_LEVEL w;
     FILE_LOGGING_STATUS := FILE_LOGGING_STATUS w;
     stdout_level := stdout_level w; file_level := file_level w;
     heap := h; loggerDict := loggerDict w; loggers := loggers w |}.

Definition with_loggerDict (d : gmap string nat) (w : World) : World :=
  {| envvars := envvars w;
     RUNTIME_LOGGING_LEVEL := RUNTIME_LOGGING_LEVEL w;
     FILE_LOGGING_STATUS := FILE_LOGGING_STATUS w;
     stdout_level := stdout_level w; file_level := file_level w;
     heap := heap w; loggerDict := d; loggers := loggers w |}.

Definition with_loggers (d : gmap string nat) (w : World) : World :=
  {| envvars := envvars w;
     RUNTIME_LOGGING_LEVEL := RUNTIME_LOGGING_LEVEL w;
     FILE_LOGGING_STATUS := FILE_LOGGING_STATUS w;
     stdout_level := stdout_level w; file_level := file_level w;
     heap := heap w; loggerDict := loggerDict w; loggers := d |}.

(** [hndlr.level] and [hndlr.setLevel(level)]. *)
Definition hndlr_level (w : World) (h : Hndlr) : Z :=
  match h with
  | stdout_hndlr => stdout_level w
  | file_hndlr => file_level w
  end.

Definition setLevel (h : Hndlr) (lvl : Z) (w : World) : World :=
  {| envvars := envvars w;
     RUNTIME_LOGGING_LEVEL := RUNTIME_LOGGING_LEVEL w;
     FILE_LOGGING_STATUS := FILE_LOGGING_STATUS w;
     stdout_level := match h with stdout_hndlr => lvl | file_hndlr => stdout_level w end;
     file_level := match h with file_hndlr => lvl | stdout_hndlr => file_level w end;
     heap := heap w; loggerDict := loggerDict w; loggers := loggers w |}.

(** [logging.getLogger(name)]: the root logger for an empty name, otherwise
    the one logger the manager keeps per name, created on first request
    (level [NOTSET], no handlers).  The dotted-name hierarchy that the
    manager maintains besides (place holders, parent links) is read by
    nothing below and is left out. *)
Definition logging_getLogger (logger_name : string) (w : World) : nat * World :=
  if decide (logger_name = "") then (0%nat, w)
  else
    match loggerDict w !! logger_name with
    | Some logger => (logger, w)
    | None =>
        let logger := length (heap w) in
        let obj := {| name := logger_name; level := NOTSET;
                      handlers := []; propagate := true |} in
        (logger,
         with_loggerDict (<[logger_name := logger]> (loggerDict w))
           (with_heap (heap w ++ [obj]) w))
    end.

(** [logger.addHandler(hdlr)]: appended unless already in the list. *)
Definition addHandler (logger : nat) (hdlr : Hndlr) (w : World) : World :=
  with_heap
    (alter (fun l => {| name := name l; level := level l;
                        handlers := if decide (hdlr ∈ handlers l) then handlers l
                                    else handlers l ++ [hdlr];
                        propagate := propagate l |})
           logger (heap w))
    w.

(** [logger.propagate = value] *)
Definition set_propagate (logger : nat) (value : bool) (w : World) : World :=
  with_heap
    (alter (fun l => {| name := name l; level := level l;
                        handlers := handlers l; propagate := value |})
           logger (heap w))
    w.

(** [get_logger] (lines 135-146).  A logger object is always true, so
    [if loggers.get(logger_name)] asks whether the key is present.
    [dict(logger_name=logger)] is the dict with the one key
    ['logger_name']. *)
Definition get_logger (logger_name : string) (w : World) : nat * World :=
  match loggers w !! logger_name with
  | Some logger => (logger, w)
  | None =>
      let '(logger, w) := logging_getLogger logger_name w in
      let w := addHandler logger stdout_hndlr w in
      let w := set_propagate logger false w in
      let w := if FILE_LOGGING_STATUS w then addHandler logger file_hndlr w
               else w in
      let w := with_loggers ({["logger_name" := logger]} ∪ loggers w) w in
      (logger, w)
  end.

Definition set_file_logging (status : bool) (w : World) : World :=
  with_file_logging_status status w.

(** *** The level methods of [LoggerWrapper] (lines 92-109)

    [self] is the address of the logger.  A method leaves the world it
    reached together with its outcome: the environment variables are
    written before [self.handlers[0]] is evaluated, which raises
    [IndexError] on a logger without handlers. *)
Definition _reset_logger_env_vars (verbose debug : bool) (w : World) : World :=
  let w := with_envvars (set_pyrevit_env_var VERBOSE_ISC_NAME verbose (envvars w)) w in
  let w := with_envvars (set_pyrevit_env_var DEBUG_ISC_NAME debug (envvars w)) w in
  w.

(** [self.handlers[0].setLevel(level)] *)
Definition set_first_handler_level (self : nat) (lvl : Z) (w : World)
  : World * Result unit :=
  match handlers <$> heap w !! self with
  | Some (hndlr :: _) => (setLevel hndlr lvl w, Ok tt)
  | Some [] => (w, Raise IndexError)
  | None => (w, Raise (OtherError "not a logger"))
  end.

(** The methods below are those of [LoggerWrapper].  Every logger object
    that [logging.getLogger] creates after [logging.setLoggerClass] (line
    129) is a [LoggerWrapper]; [logging.root] at address 0 is a
    [RootLogger] made when [logging] was imported and has none of them:
    looking one up on it raises [AttributeError] before anything is done. *)
Definition wrapper_method {A} (self : nat) (w : World)
    (body : World * Result A) : World * Result A :=
  if decide (self = 0%nat) then (w, Raise AttributeError) else body.

Definition set_level (self : nat) (lvl : Z) (w : World) : World * Result unit :=
  wrapper_method self w (set_first_handler_level self lvl w).

Definition set_verbose_mode (self : nat) (w : World) : World * Result unit :=
  wrapper_method self w
    (let w := _reset_logger_env_vars true false w in
     set_first_handler_level self INFO w).

Definition set_debug_mode (self : nat) (w : World) : World * Result unit :=
  wrapper_method self w
    (let w := _reset_logger_env_vars false true w in
     set_first_handler_level self DEBUG w).

Definition reset_level (self : nat) (w : World) : World * Result unit :=
  wrapper_method self w
    (let w := _reset_logger_env_vars false false w in
     set_first_handler_level self (RUNTIME_LOGGING_LEVEL w) w).

(** [return self.level] *)
Definition get_level (self : nat) (w : World) : Result Z :=
  (wrapper_method self w
     (w, match heap w !! self with
         | Some l => Ok (level l)
         | None => Raise (OtherError "not a logger")
         end)).2.

(** The world right after [logger.py] has been imported in a fresh
    interpreter: the level chosen from the session variables, the two
    handlers at their levels, file logging off, only the root logger
    ([WARNING], no handlers) in existence, an empty registry. *)
Definition import_logger (params : ExecParams) (env : gmap string bool) : World :=
  let runtime := runtime_logging_level params env in
  {| envvars := env;
     RUNTIME_LOGGING_LEVEL := runtime;
     FILE_LOGGING_STATUS := false;
     stdout_level := runtime;
     file_level := RUNTIME_FILE_LOGGING_LEVEL;
     heap := [{| name := "root"; level := WARNING; handlers := [];
                 propagate := true |}];
     loggerDict := ∅;
     loggers := ∅ |}.

(** A first session: no flag set, nothing forced. *)
Definition fresh_session : World :=
  import_logger {| doc_mode := false; forced_debug_mode := false |} ∅.

(** The first session after a script has asked [logging] itself for a
    logger: a [LoggerWrapper] at address 1 that [get_logger] never set
    up. *)
Definition bare_wrapper_session : World :=
  (logging_getLogger "bare" fresh_session).2.

(** The first session after [get_logger('script')] and
    [get_logger('loader')]: loggers at the addresses 1 and 2. *)
Definition two_logger_session : World :=
  (get_logger "loader" (get_logger "script" fresh_session).2).2.

(** What a script can do to the module after the import. *)
Inductive Call :=
| CallGetLogger (logger_name : string)
| CallSetFileLogging (status : bool)
| CallSetLevel (self : nat) (lvl : Z)
| CallSetVerboseMode (self : nat)
| CallSetDebugMode (self : nat)
| CallResetLevel (self : nat).

Definition call (c : Call) (w : World) : World :=
  match c with
  | CallGetLogger n => (get_logger n w).2
  | CallSetFileLogging status => set_file_logging status w
  | CallSetLevel self lvl => (set_level self lvl w).1
  | CallSetVerboseMode self => (set_verbose_mode self w).1
  | CallSetDebugMode self => (set_debug_mode self w).1
  | CallResetLevel self => (reset_level self w).1
  end.

Inductive reachable : World -> Prop :=
| reachable_import params env : reachable (import_logger params env)
| reachable_call c w : reachable w -> reachable (call c w).

(** The handlers of the logger at an address; the empty list where there
    is no logger. *)
Definition handlers_of (w : World) (logger : nat) : list Hndlr :=
  default [] (handlers <$> heap w !! logger).

(** What the creating branch of [get_logger] does to the logger object,
    in one step. *)
Definition add_handler (hdlr : Hndlr) (hs : list Hndlr) : list Hndlr :=
  if decide (hdlr ∈ hs) then hs else hs ++ [hdlr].

Definition configured (status : bool) (l : Logger) : Logger :=
  {| name := name l; level := level l;
     handlers :=
       if status then add_handler file_hndlr (add_handler stdout_hndlr (handlers l))
       else add_handler stdout_hndlr (handlers l);
     propagate := false |}.

(** What holds of every world a session can reach. *)
Record wf (w : World) : Prop := {
  wf_root : (0 < length (heap w))%nat;
  wf_dict : forall n a, loggerDict w !! n = Some a -> (a < length (heap w))%nat;
  wf_keys : forall k, k <> "logger_name" -> loggers w !! k = None;
  wf_registered : forall k a, loggers w !! k = Some a ->
                    exists rest, handlers_of w a = stdout_hndlr :: rest;
  wf_first : forall a, handlers_of w a = [] \/
                       exists rest, handlers_of w a = stdout_hndlr :: rest;
}.

(** A logger of the world as [getEffectiveLevel] sees it, given the view of
    its parent. *)
Definition node_of (w : World) (l : Logger) (parent : option LoggerNode)
  : LoggerNode :=
  {| node_level := level l;
     node_handlers := hndlr_level w <$> handlers l;
     node_parent := parent |}.

(** ** The user name in the words of the specification *)

(** [s] up to, and without, its first occurrence of [c]; all of [s] when
    [c] does not occur. *)
Fixpoint before_first (c : ascii) (s : string) : string :=
  match s with
  | EmptyString => EmptyString
  | String x rest => if Ascii.eqb x c then EmptyString
                     else String x (before_first c rest)
  end.

(** [s] with every occurrence of [c] deleted. *)
Fixpoint delete_char (c : ascii) (s : string) : string :=
  match s with
  | EmptyString => EmptyString
  | String x rest => if Ascii.eqb x c then delete_char c rest
                     else String x (delete_char c rest)
  end.

Fixpoint occurs (c : ascii) (s : string) : Prop :=
  match s with
  | EmptyString => False
  | String x rest => x = c \/ occurs c rest
  end.

(** ** Further parts of [pyrevit/__init__.py] *)

(** *** Version comparison (lines 89-93)

    [int(x)] is the interpreter's; the comparison methods are modelled over
    any conversion of text to an integer that either returns or raises.  The
    argument of the methods is a string or already an int. *)
Class PyInt := {
  int_of_str : string -> Result Z;
}.

Inductive VersionArg :=
| VersionText (s : string)
| VersionInt (n : Z).

Definition int_of_arg `{PyInt} (v : VersionArg) : Result Z :=
  match v with
  | VersionText s => int_of_str s
  | VersionInt n => Ok n
  end.

Definition is_newer_than `{PyInt} (h : HostApplication) (v : VersionArg)
  : Result bool :=
  mine ← int_of_str (version h);
  other ← int_of_arg v;
  Ok (other <? mine).

Definition is_older_than `{PyInt} (h : HostApplication) (v : VersionArg)
  : Result bool :=
  mine ← int_of_str (version h);
  other ← int_of_arg v;
  Ok (mine <? other).

(** A conversion that accepts the non-empty strings of decimal digits and
    refuses everything else; it serves for examples. *)
Fixpoint digits_value (acc : Z) (s : string) : option Z :=
  match s with
  | EmptyString => Some acc
  | String c rest =>
      let code := Z.of_nat (nat_of_ascii c) in
      if (48 <=? code) && (code <=? 57)
      then digits_value (10 * acc + (code - 48)) rest
      else None
  end.

Definition numeral_int : PyInt :=
  {| int_of_str := fun s =>
       match s, digits_value 0 s with
       | String _ _, Some n => Ok n
       | _, _ => Raise ValueError
       end |}.

(** *** [_ExecutorParams] (lines 102-195)

    The values the executor injects into the builtins scope, as far as the
    properties look at them: their kind and their truth value. *)
Inductive Value :=
| VNone
| VBool (b : bool)
| VInt (n : Z)
| VStr (s : string)
| VObject (id : nat).

(** Python's truth value: [None], [False], [0] and [''] are false. *)
Definition truth (v : Value) : bool :=
  match v with
  | VNone => false
  | VBool b => b
  | VInt n => negb (n =? 0)
  | VStr s => negb (String.eqb s "")
  | VObject _ => true
  end.

(** The builtins scope: a bare name that is not bound there raises
    [NameError], which every getter below catches. *)
Definition window_handle (builtins : gmap string Value) : Value :=
  match builtins !! "__window__" with
  | Some v => if truth v then v else VNone
  | None => VNone
  end.

Definition set_window_handle (value : Value) (builtins : gmap string Value)
  : gmap string Value :=
  <["__window__" := value]> builtins.

Definition command_name (builtins : gmap string Value) : Value :=
  default VNone (builtins !! "__commandname__").

Definition set_command_name (value : Value) (builtins : gmap string Value)
  : gmap string Value :=
  <["__commandname__" := value]> builtins.

Definition command_path (builtins : gmap string Value) : Value :=
  default VNone (builtins !! "__commandpath__").

Definition set_command_path (value : Value) (builtins : gmap string Value)
  : gmap string Value :=
  <["__commandpath__" := value]> builtins.

Definition forced_debug_mode_of (builtins : gmap string Value) : Value :=
  default (VBool false) (builtins !! "__forceddebugmode__").

Definition doc_mode_of (builtins : gmap string Value) : Value :=
  default (VBool false) (builtins !! "__sphinx__").

Definition command_mode (builtins : gmap string Value) : Value :=
  command_name builtins.

(** The module after its import: the builtins scope, which the setters
    keep changing, and [FIRST_LOAD], which line 198 binds once,
    [True if EXEC_PARAMS.window_handle is None else False], and which
    nothing assigns again. *)
Record InitModule := {
  builtins_scope : gmap string Value;
  FIRST_LOAD : bool;
}.

Definition import_init (builtins : gmap string Value) : InitModule :=
  {| builtins_scope := builtins;
     FIRST_LOAD := match window_handle builtins with
                   | VNone => true
                   | _ => false
                   end |}.

(** [EXEC_PARAMS.window_handle = value] after the import. *)
Definition assign_window_handle (value : Value) (m : InitModule) : InitModule :=
  {| builtins_scope := set_window_handle value (builtins_scope m);
     FIRST_LOAD := FIRST_LOAD m |}.

(** The parameters as [logger.py] tests them. *)
Definition exec_params_of (builtins : gmap string Value) : ExecParams :=
  {| doc_mode := truth (doc_mode_of builtins);
     forced_debug_mode := truth (forced_debug_mode_of builtins) |}.

(** An assembly attribute as [executor_version] reads it:
    [str(custom_attr.AttributeType)] and the renderings of
    [custom_attr.ConstructorArguments]. *)
Record CustomAttr := {
  AttributeType : string;
  ConstructorArguments : list string;
}.

(** [needle in hay] for strings. *)
Fixpoint contains (needle hay : string) : bool :=
  String.prefix needle hay ||
  match hay with
  | EmptyString => false
  | String _ rest => contains needle rest
  end.

Definition double_quote : ascii := "034".

(** What a call of [executor_version] comes to: a value ([None] when the
    loop ends without a match) or the [AttributeError] that the bare
    [except] raises instead of whatever went wrong. *)
Inductive AttrOutcome :=
| Returns (v : option string)
| RaisesAttributeError.

Fixpoint executor_version_loop (attrs : list CustomAttr) : AttrOutcome :=
  match attrs with
  | [] => Returns None
  | custom_attr :: rest =>
      if contains "AssemblyPyRevitVersion" (AttributeType custom_attr) then
        match ConstructorArguments custom_attr with
        | arg :: _ => Returns (Some (replace double_quote "" arg))
        | [] => RaisesAttributeError
        end
      else executor_version_loop rest
  end.

(** [assmcustomattrs] is [None] when [__assmcustomattrs__] is not bound. *)
Definition executor_version (assmcustomattrs : option (list CustomAttr))
  : AttrOutcome :=
  match assmcustomattrs with
  | Some attrs => executor_version_loop attrs
  | None => RaisesAttributeError
  end.

(** ** Further parts of [pyrevit/coreutils/logger.py] *)

(** [FILE_LOG_FILENAME] (line 29); a [None] prefix is rendered as ['None']. *)
Definition FILE_LOG_FILENAME (stamped : option string) : Result string :=
  format "{}.log" [default "None" stamped].

(** *** [LoggerWrapper._log] (lines 65-73)

    A character of a message is ASCII when its top bit is clear;
    [encode('ascii', 'ignore')] drops the others. *)
Definition is_ascii (c : ascii) : bool :=
  match c with
  | Ascii _ _ _ _ _ _ _ top => negb top
  end.

Fixpoint encode_ascii_ignore (s : string) : string :=
  match s with
  | EmptyString => EmptyString
  | String c rest => if is_ascii c then String c (encode_ascii_ignore rest)
                     else encode_ascii_ignore rest
  end.

(** [os.path.sep] of the host platform. *)
Definition os_path_sep : ascii := "092".

(** The message up to the call of [emojize]. *)
Definition clean_message (msg_str : string) : string :=
  let msg_str := encode_ascii_ignore msg_str in
  let msg_str := replace os_path_sep "/" msg_str in
  msg_str.

(** [emojize] and [prepare_html_str] of [pyrevit.coreutils] are not among
    the sources and are taken as they come. *)
Class Coreutils := {
  emojize : string -> string;
  prepare_html_str : string -> string;
}.

(** The call [logging.Logger._log(self, level, msg_str, args, exc_info=None,
    extra=None)] that [_log] ends with. *)
Record LogCall := {
  call_level : Z;
  call_msg : string;
  call_args : list PyVal;
  call_exc_info : option string;
  call_extra : option string;
}.

Definition _log `{Coreutils} (lvl : Z) (msg : PyVal) (args : list PyVal)
    (exc_info extra : option string) : Result LogCall :=
  msg_str ← py_str msg;
  let msg_str := clean_message msg_str in
  let msg_str := emojize msg_str in
  let msg_str := if lvl =? INFO then prepare_html_str msg_str else msg_str in
  Ok {| call_level := lvl; call_msg := msg_str; call_args := args;
        call_exc_info := None; call_extra := None |}.

(** *** The base [logging.Logger.getEffectiveLevel] that the wrapper
    overrides: the first non-zero level up the parent chain. *)
Fixpoint Logger_getEffectiveLevel (logger : LoggerNode) : Z :=
  match logger with
  | Build_LoggerNode level _ parent =>
      if negb (level =? 0) then level
      else match parent with
           | Some logger' => Logger_getEffectiveLevel logger'
           | None => NOTSET
           end
  end.

(** The three methods that write the session variables. *)
Inductive Mode := ModeVerbose | ModeDebug | ModeReset.

Definition set_mode (m : Mode) (self : nat) (w : World) : World * Result unit :=
  match m with
  | ModeVerbose => set_verbose_mode self w
  | ModeDebug => set_debug_mode self w
  | ModeReset => reset_level self w
  end.

(** What holds besides of every world a session can reach. *)
Record tidy (w : World) : Prop := {
  tidy_handlers : forall a,
    handlers_of w a = [] \/ handlers_of w a = [stdout_hndlr] \/
    handlers_of w a = [stdout_hndlr; file_hndlr];
  tidy_levels : forall a l, heap w !! a = Some l ->
    level l = if decide (a = 0%nat) then WARNING else NOTSET;
  tidy_propagate : forall a l, heap w !! a = Some l ->
    handlers l <> [] -> propagate l = false;
  tidy_names : forall n a, loggerDict w !! n = Some a ->
    a <> 0%nat /\ n <> "" /\ name <$> heap w !! a = Some n;
  tidy_file_level : file_level w = DEBUG;
  tidy_runtime : RUNTIME_LOGGING_LEVEL w = DEBUG \/
                 RUNTIME_LOGGING_LEVEL w = INFO \/
                 RUNTIME_LOGGING_LEVEL w = WARNING;
}.

(** ** Sample inputs and auxiliary notions of the further properties *)

(** A file system without directories on which [mkdir] fails with an
    exception that is no [OSError]. *)
Definition broken_fs : FileSystem :=
  {| FS := unit; isdir := fun _ _ => false;
     mkdir := fun _ _ => Raise (OtherError "TypeError: expected a string") |}.

(** A file system on which every path is a directory. *)
Definition full_fs : FileSystem :=
  {| FS := unit; isdir := fun _ _ => true; mkdir := fun _ _ => Ok tt |}.

(** A file system without directories on which [mkdir] succeeds. *)
Definition empty_fs : FileSystem :=
  {| FS := unit; isdir := fun _ _ => false; mkdir := fun _ _ => Ok tt |}.

(** Every character of [s] is ASCII. *)
Fixpoint all_ascii (s : string) : Prop :=
  match s with
  | EmptyString => True
  | String c rest => is_ascii c = true /\ all_ascii rest
  end.

(** Two assembly attributes: a title and the version marker. *)
Definition version_attr : CustomAttr :=
  {| AttributeType := "PyRevitLoader.AssemblyPyRevitVersion";
     ConstructorArguments := [String double_quote ("4.2" +:+ String double_quote "")] |}.

Definition title_attr : CustomAttr :=
  {| AttributeType := "System.Reflection.AssemblyTitleAttribute";
     ConstructorArguments := [] |}.

(** The logger object that [logging.getLogger] creates for a new name. *)
Definition fresh_logger (n : string) : Logger :=
  {| name := n; level := NOTSET; handlers := []; propagate := true |}.

(** * Properties *)

(** ** Strings *)

Lemma append_nil (s : string) : "" +:+ s = s.
Proof. reflexivity. Qed.

Lemma append_cons (c : ascii) (s t : string) :
  String c s +:+ t = String c (s +:+ t).
Proof. reflexivity. Qed.

Lemma append_empty_r (s : string) : s +:+ "" = s.
Proof.
  induction s as [|c s IH]; [done |]. by rewrite append_cons, IH.
Qed.

Ltac string_simpl := cbn; rewrite ?append_cons, ?append_nil, ?append_empty_r.

Lemma split_head (sep : ascii) (s : string) :
  exists pieces, split sep s = before_first sep s :: pieces.
Proof.
  induction s as [|c s [pieces IH]]; simpl.
  - by exists [].
  - destruct (Ascii.eqb c sep).
    + by eexists.
    + rewrite IH. by eexists.
Qed.

Lemma replace_empty (old : ascii) (s : string) :
  replace old "" s = delete_char old s.
Proof.
  induction s as [|c s IH]; simpl; [done |].
  destruct (Ascii.eqb c old); rewrite ?append_nil; by rewrite IH.
Qed.

Lemma before_first_decompose (c : ascii) (s : string) :
  s = before_first c s \/
  exists rest, s = before_first c s +:+ String c rest.
Proof.
  induction s as [|x s IH]; simpl; [by left |].
  destruct (Ascii.eqb_spec x c) as [->|Hne].
  - right. by exists s.
  - destruct IH as [IH | [rest IH]].
    + left. by rewrite <- IH.
    + right. exists rest. rewrite append_cons. by rewrite <- IH.
Qed.

Lemma before_first_free (c : ascii) (s : string) :
  ~ occurs c (before_first c s).
Proof.
  induction s as [|x s IH]; simpl; [tauto |].
  destruct (Ascii.eqb_spec x c) as [->|Hne]; simpl; tauto.
Qed.

Lemma delete_char_free (c : ascii) (s : string) : ~ occurs c (delete_char c s).
Proof.
  induction s as [|x s IH]; simpl; [tauto |].
  destruct (Ascii.eqb_spec x c) as [->|Hne]; simpl; tauto.
Qed.

Lemma delete_char_keeps_free (c d : ascii) (s : string) :
  ~ occurs d s -> ~ occurs d (delete_char c s).
Proof.
  induction s as [|x s IH]; simpl; [tauto |].
  destruct (Ascii.eqb x c); simpl; tauto.
Qed.

(** ** [pyrevit/__init__.py] *)

Example username_email :
  username {| VersionNumber := "2017"; Username := "john.doe@example.com";
              ProcessId := 4242 |} = "johndoe".
Proof. reflexivity. Qed.

Example username_plain :
  username {| VersionNumber := "2017"; Username := "jdoe"; ProcessId := 1 |}
  = "jdoe".
Proof. reflexivity. Qed.

Example prefixes_2017 :
  file_prefixes false {| VersionNumber := "2017";
                         Username := "john.doe@example.com";
                         ProcessId := 4242 |}
  = Ok {| PYREVIT_FILE_PREFIX_UNIVERSAL := Some "pyRevit_johndoe";
          PYREVIT_FILE_PREFIX := Some "pyRevit_2017_johndoe";
          PYREVIT_FILE_PREFIX_STAMPED := Some "pyRevit_2017_johndoe_4242" |}.
Proof. by vm_compute. Qed.

(** C8: for every user name [s] reported by the host, [username] is [s] cut
    before its first ['@'] (nothing is cut when there is none) and then
    stripped of every ['.']; the result contains neither ['@'] nor ['.'],
    and 'john.doe@example.com' gives 'johndoe'. *)
Theorem username_cuts_at_and_drops_dots :
  (forall h : HostApplication,
     username h = delete_char "." (before_first "@" (Username h)) /\
     (Username h = before_first "@" (Username h) \/
      exists rest, Username h = before_first "@" (Username h) +:+ String "@" rest) /\
     ~ occurs "@" (before_first "@" (Username h)) /\
     ~ occurs "@" (username h) /\
     ~ occurs "." (username h)) /\
  (forall v p, username {| VersionNumber := v; Username := "john.doe@example.com";
                           ProcessId := p |} = "johndoe").
Proof.
  split; [| done].
  intros h.
  assert (Hu : username h = delete_char "." (before_first "@" (Username h))).
  { unfold username. destruct (split_head "@" (Username h)) as [pieces ->].
    simpl. apply replace_empty. }
  split; [exact Hu |].
  split; [apply before_first_decompose |].
  split; [apply before_first_free |].
  rewrite Hu. split.
  - apply delete_char_keeps_free, before_first_free.
  - apply delete_char_free.
Qed.

(** C3: outside the documentation mode the three file-name prefixes are the
    add-in name, the host version, the user name and the process id (in
    decimal) joined by underscores:
    'pyRevit_' + u, 'pyRevit_' + v + '_' + u and
    'pyRevit_' + v + '_' + u + '_' + p. *)
Theorem file_prefixes_are_concatenations (h : HostApplication) :
  file_prefixes false h =
  Ok {| PYREVIT_FILE_PREFIX_UNIVERSAL := Some ("pyRevit_" +:+ username h);
        PYREVIT_FILE_PREFIX :=
          Some ("pyRevit_" +:+ version h +:+ "_" +:+ username h);
        PYREVIT_FILE_PREFIX_STAMPED :=
          Some ("pyRevit_" +:+ version h +:+ "_" +:+ username h +:+ "_"
                +:+ str_int (proc_id h)) |}.
Proof.
  unfold file_prefixes, PYREVIT_ADDON_NAME.
  generalize (username h) (version h) (str_int (proc_id h)).
  intros u v p. by string_simpl.
Qed.

Section AppDirsProperties.
Context `{FileSystem}.

Lemma ensure_app_dirs_app (before rest : list string) (st : ImportState) :
  ensure_app_dirs (before ++ rest) st =
  st' ← ensure_app_dirs before st; ensure_app_dirs rest st'.
Proof.
  revert st. induction before as [|d before IH]; intros st; [done |].
  cbn [app ensure_app_dirs].
  destruct (isdir (fs st) d); [apply IH |].
  destruct (mkdir (fs st) d) as [fs'|e]; [apply IH |].
  destruct e; try done; simpl;
    by destruct (format _ _).
Qed.

Lemma access_message (d err : string) :
  format "Can not access pyRevit folder at: {} | {}" [d; err] =
  Ok ("Can not access pyRevit folder at: " +:+ d +:+ " | " +:+ err).
Proof. by string_simpl. Qed.

(** C4: when the loop reaches an application-data directory [d] that does
    not exist and [os.mkdir] fails on it with an [OSError] or an
    [IOException] rendered as [err], the import raises
    [PyRevitException] with the message
    'Can not access pyRevit folder at: ' + d + ' | ' + err,
    and not the operating-system error itself. *)
Theorem mkdir_failure_raises_PyRevitException
    (before after : list string) (d err : string) (x : Exn)
    (st st' : ImportState) :
  ensure_app_dirs before st = Ok st' ->
  isdir (fs st') d = false ->
  mkdir (fs st') d = Raise x ->
  x = OSError err \/ x = IOException err ->
  ensure_app_dirs (before ++ d :: after) st =
  Raise (PyRevitException
           ("Can not access pyRevit folder at: " +:+ d +:+ " | " +:+ err)).
Proof.
  intros Hbefore Hmissing Hmkdir Hx.
  rewrite ensure_app_dirs_app, Hbefore.
  change (ensure_app_dirs (d :: after) st' = Raise
    (PyRevitException ("Can not access pyRevit folder at: " +:+ d +:+ " | " +:+ err))).
  cbn [ensure_app_dirs]. rewrite Hmissing, Hmkdir.
  destruct Hx as [-> | ->]; by rewrite access_message.
Qed.
End AppDirsProperties.

Lemma mkdir_failure_raises_PyRevitException_witness :
  @ensure_app_dirs locked_fs ["C:\appdata\pyRevit"; "C:\appdata\pyRevit\2017"]
    {| fs := tt : @FS locked_fs; sys_path := [] |} =
  Raise (PyRevitException
    "Can not access pyRevit folder at: C:\appdata\pyRevit | [Errno 13] Permission denied").
Proof.
  apply (@mkdir_failure_raises_PyRevitException locked_fs []
           ["C:\appdata\pyRevit\2017"] "C:\appdata\pyRevit"
           "[Errno 13] Permission denied"
           (OSError "[Errno 13] Permission denied")
           {| fs := tt : @FS locked_fs; sys_path := [] |}
           {| fs := tt : @FS locked_fs; sys_path := [] |}).
  - reflexivity.
  - reflexivity.
  - reflexivity.
  - left. reflexivity.
Defined.

(** *** [PyRevitException.__str__] *)

Lemma report_with_message (message tb_report : string) :
  format ("{}" +:+ newline +:+ newline +:+ "{}" +:+ newline +:+ "{}")
         [message; TRACEBACK_TITLE; tb_report] =
  Ok (message +:+ newline +:+ newline +:+ TRACEBACK_TITLE +:+ newline
      +:+ tb_report).
Proof.
  unfold newline, TRACEBACK_TITLE. string_simpl.
  by repeat (string_simpl; unfold fmap, result_fmap).
Qed.

Lemma report_without_message (tb_report : string) :
  format ("{}" +:+ newline +:+ "{}") [TRACEBACK_TITLE; tb_report] =
  Ok (TRACEBACK_TITLE +:+ newline +:+ tb_report).
Proof.
  unfold newline, TRACEBACK_TITLE. string_simpl.
  by repeat (string_simpl; unfold fmap, result_fmap).
Qed.

Lemma format_report_raises_iff (self : ExcState) :
  raises (format_report self) <->
  format_tb (exc_traceback self) = [] \/
  exists a rest e, args self = a :: rest /\ py_format a = Raise e.
Proof.
  unfold format_report, raises.
  destruct (format_tb (exc_traceback self)) as [|entry entries];
    cbn [index0 mbind result_bind].
  - split; [by left | intros _; by eexists].
  - destruct (args self) as [|a rest].
    + rewrite report_without_message. split.
      * by intros [e He].
      * intros [? | (a & rest & e & ? & _)]; done.
    + destruct (py_format a) as [m|e] eqn:Hformat; cbn [mbind result_bind].
      * rewrite report_with_message. split.
        -- by intros [e He].
        -- intros [? | (a' & rest' & e & [= <- <-] & ?)]; congruence.
      * split; [| by eexists]. intros _. right. by exists a, rest, e.
Qed.

(** C5, as stated, fails: rendering the exception raised with an argument
    whose own string conversion raises, outside of an [except] block and
    inside one alike, raises out of [__str__], because the fall-back
    [Exception.__str__] converts the same argument. *)
Lemma PyRevitException_str_can_raise :
  PyRevitException_str {| args := [unprintable]; exc_traceback := None |}
    = Raise ValueError /\
  PyRevitException_str {| args := [unprintable];
                          exc_traceback := Some ["  File a.py, line 1, in f"] |}
    = Raise ValueError.
Proof. split; reflexivity. Qed.

(** C5, amended: a failure while formatting the traceback report or the
    first argument never leaves [__str__]; the method then returns what the
    base [Exception.__str__] returns.  So [__str__] raises only when that
    base rendering raises, with the same exception, and it always returns a
    string when there are no arguments or when the single argument converts
    to a string. *)
Theorem PyRevitException_str_falls_back (self : ExcState) :
  (forall s, format_report self = Ok s -> PyRevitException_str self = Ok s) /\
  (forall e, format_report self = Raise e ->
             PyRevitException_str self = Exception_str self) /\
  (forall e, PyRevitException_str self = Raise e ->
             Exception_str self = Raise e) /\
  (args self = [] -> exists s, PyRevitException_str self = Ok s) /\
  (forall a s, args self = [a] -> py_str a = Ok s ->
               exists s', PyRevitException_str self = Ok s').
Proof.
  unfold PyRevitException_str.
  split; [by intros s -> |].
  split; [by intros e -> |].
  split.
  { intros e. destruct (format_report self); simpl; [done | by intros ->]. }
  split.
  - intros Hargs. destruct (format_report self) as [s|e]; simpl; [by eexists |].
    unfold Exception_str. rewrite Hargs. by eexists.
  - intros a s Hargs Hstr.
    destruct (format_report self) as [s'|e]; simpl; [by eexists |].
    unfold Exception_str. rewrite Hargs, Hstr. by eexists.
Qed.

Lemma PyRevitException_str_falls_back_witness :
  exists s',
    PyRevitException_str
      {| args := [{| py_str := Ok "no access"; py_format := Ok "no access";
                     py_repr := Ok "'no access'" |}];
         exc_traceback := None |} = Ok s'.
Proof.
  eapply (proj2 (proj2 (proj2 (proj2 (PyRevitException_str_falls_back _))))).
  - reflexivity.
  - reflexivity.
Defined.

(** ** [pyrevit/coreutils/logger.py] *)

Lemma runtime_logging_level_cases (forced : bool) (env : gmap string bool) :
  runtime_logging_level {| doc_mode := false; forced_debug_mode := forced |} env =
  if truthy (get_pyrevit_env_var DEBUG_ISC_NAME env) || forced then DEBUG
  else if truthy (get_pyrevit_env_var VERBOSE_ISC_NAME env) then INFO
  else WARNING.
Proof.
  unfold runtime_logging_level. cbn [doc_mode forced_debug_mode negb].
  by destruct (truthy (get_pyrevit_env_var VERBOSE_ISC_NAME env)),
              (truthy (get_pyrevit_env_var DEBUG_ISC_NAME env)), forced.
Qed.

(** C6: outside the documentation mode the console level is [WARNING] by
    default, [INFO] when the verbose session variable is set, and [DEBUG]
    when the debug session variable is set or debug mode is forced; with
    both variables set it is [DEBUG].  The level is the one the console
    handler starts with. *)
Theorem runtime_logging_level_selection (forced : bool) (env : gmap string bool) :
  runtime_logging_level {| doc_mode := false; forced_debug_mode := forced |} env =
    (if truthy (get_pyrevit_env_var DEBUG_ISC_NAME env) || forced then DEBUG
     else if truthy (get_pyrevit_env_var VERBOSE_ISC_NAME env) then INFO
     else WARNING) /\
  RUNTIME_LOGGING_LEVEL
    (import_logger {| doc_mode := false; forced_debug_mode := forced |} env) =
    runtime_logging_level {| doc_mode := false; forced_debug_mode := forced |} env /\
  stdout_level
    (import_logger {| doc_mode := false; forced_debug_mode := forced |} env) =
    runtime_logging_level {| doc_mode := false; forced_debug_mode := forced |} env.
Proof. split; [apply runtime_logging_level_cases | done]. Qed.

(** *** The effective level *)

Lemma lowest_handler_level_from (start : Z) (levels : list Z) :
  fold_left (fun eff_level hndlr_level =>
               if hndlr_level <? eff_level then hndlr_level else eff_level)
            levels start = least start levels.
Proof.
  revert start. induction levels as [|h levels IH]; intros start; [done |].
  cbn [fold_left]. rewrite IH. unfold least. cbn [foldr].
  destruct (Z.ltb_spec h start) as [Hlt|Hge].
  - clear IH. induction levels as [|k levels IH]; cbn [foldr]; lia.
  - clear IH. induction levels as [|k levels IH]; cbn [foldr]; lia.
Qed.

Lemma least_bounds (first : Z) (others : list Z) :
  least first others <= first /\
  (forall h, h ∈ others -> least first others <= h) /\
  (least first others = first \/ least first others ∈ others).
Proof.
  unfold least. induction others as [|k others (IH1 & IH2 & IH3)]; cbn [foldr].
  - split; [lia |]. split; [| by left]. intros h Hin. by apply elem_of_nil in Hin.
  - split; [lia |]. split.
    + intros h [-> | Hin]%elem_of_cons; [lia |]. specialize (IH2 h Hin). lia.
    + destruct (Z.min_spec k (foldr Z.min first others)) as [[_ ->] | [_ ->]].
      * right. apply elem_of_cons. by left.
      * destruct IH3 as [-> | Hin]; [by left |]. right. apply elem_of_cons. by right.
Qed.

(** C9, as stated, fails: a logger without handlers but with its own level
    [DEBUG], below a parent whose handler is at [WARNING], has the effective
    level [DEBUG], where the wording of the specification gives the parent's handler level; and a
    single handler above [CRITICAL] gives [CRITICAL], not the handler's
    level. *)
Lemma getEffectiveLevel_differs_from_spec :
  getEffectiveLevel debug_child = DEBUG /\
  spec_effective_level debug_child = WARNING /\
  getEffectiveLevel loud_logger = CRITICAL /\
  spec_effective_level loud_logger = 60 /\
  getEffectiveLevel debug_child <> spec_effective_level debug_child.
Proof. repeat split; try reflexivity. by vm_compute. Qed.

(** C9, amended: [getEffectiveLevel] stops at the nearest logger of the
    parent chain that has a handler or a non-zero level of its own.  If that
    logger has handlers, the result is the least of [CRITICAL] and its
    handler levels; if it has none, the result is its own level.  Without
    such a logger the result is [NOTSET]. *)
Theorem getEffectiveLevel_nearest_configured (logger : LoggerNode) :
  match List.find (fun g => bool_decide (node_handlers g <> [])
                            || bool_decide (node_level g <> 0))
                  (chain logger) with
  | Some g =>
      getEffectiveLevel logger =
        match node_handlers g with
        | [] => node_level g
        | _ :: _ => least CRITICAL (node_handlers g)
        end
  | None => getEffectiveLevel logger = NOTSET
  end.
Proof.
  induction logger as [lvl hs | lvl hs p IH] using LoggerNode_ind;
    cbn [chain List.find node_handlers node_level getEffectiveLevel];
    (destruct hs as [|h hs];
     [ cbn [length]; rewrite bool_decide_false by (by intros []);
       change (0 <? 0)%nat with false; cbn [orb];
       destruct (Z.eqb_spec lvl 0) as [-> | Hne];
       [ rewrite bool_decide_false by (by intros []); cbn [negb] |
         rewrite bool_decide_true by done; cbn [negb node_handlers node_level] ]
     | rewrite bool_decide_true by done;
       cbn [orb node_handlers length];
       change (0 <? S (length hs))%nat with true; cbv iota;
       unfold lowest_handler_level; apply lowest_handler_level_from ]);
    done.
Qed.

(** *** The level methods *)

Lemma session_names_differ : VERBOSE_ISC_NAME <> DEBUG_ISC_NAME.
Proof. by vm_compute. Qed.

Lemma hndlr_level_setLevel (w : World) (h : Hndlr) (lvl : Z) :
  hndlr_level (setLevel h lvl w) h = lvl.
Proof. by destruct h. Qed.

Lemma set_first_handler_level_ok (w : World) (self : nat) (lvl : Z)
    (hndlr : Hndlr) (others : list Hndlr) :
  handlers <$> heap w !! self = Some (hndlr :: others) ->
  set_first_handler_level self lvl w = (setLevel hndlr lvl w, Ok tt).
Proof. unfold set_first_handler_level. by intros ->. Qed.

Lemma envvars_after_reset (verbose debug : bool) (w : World) :
  get_pyrevit_env_var VERBOSE_ISC_NAME
    (envvars (_reset_logger_env_vars verbose debug w)) = Some verbose /\
  get_pyrevit_env_var DEBUG_ISC_NAME
    (envvars (_reset_logger_env_vars verbose debug w)) = Some debug.
Proof.
  unfold get_pyrevit_env_var, _reset_logger_env_vars, set_pyrevit_env_var.
  cbn [envvars with_envvars]. split.
  - rewrite lookup_insert_ne by (intros E; by apply session_names_differ).
    apply lookup_insert_eq.
  - apply lookup_insert_eq.
Qed.

Lemma set_first_handler_level_envvars (self : nat) (lvl : Z) (w : World) :
  envvars (set_first_handler_level self lvl w).1 = envvars w.
Proof.
  unfold set_first_handler_level.
  destruct (handlers <$> heap w !! self) as [[|h hs]|]; done.
Qed.

Lemma wrapper_method_wrapper {A} (self : nat) (w : World)
    (body : World * Result A) :
  self <> 0%nat -> wrapper_method self w body = body.
Proof. intros Hself. unfold wrapper_method. by rewrite decide_False. Qed.

Lemma wrapper_method_root {A} (w : World) (body : World * Result A) :
  wrapper_method 0 w body = (w, Raise AttributeError).
Proof. done. Qed.

(** C7, as stated, fails: a [LoggerWrapper] obtained from
    [logging.getLogger] has no handler; on it the three methods raise
    [IndexError] at [self.handlers[0]] and no handler level is set: the
    console handler stays at [WARNING], the file handler at [DEBUG].  And
    the logger that [get_logger('')] hands out is the root logger, on which
    the methods do not exist: the call raises [AttributeError] and writes
    neither a session variable nor a handler level. *)
Lemma level_methods_fail_without_handlers :
  handlers_of bare_wrapper_session 1 = [] /\
  (set_debug_mode 1 bare_wrapper_session).2 = Raise IndexError /\
  (set_verbose_mode 1 bare_wrapper_session).2 = Raise IndexError /\
  (reset_level 1 bare_wrapper_session).2 = Raise IndexError /\
  hndlr_level (set_debug_mode 1 bare_wrapper_session).1 stdout_hndlr = WARNING /\
  hndlr_level (set_debug_mode 1 bare_wrapper_session).1 file_hndlr = DEBUG /\
  hndlr_level (set_verbose_mode 1 bare_wrapper_session).1 stdout_hndlr = WARNING /\
  (get_logger "" fresh_session).1 = 0%nat /\
  handlers_of (get_logger "" fresh_session).2 0 = [stdout_hndlr] /\
  set_debug_mode 0 (get_logger "" fresh_session).2
    = ((get_logger "" fresh_session).2, Raise AttributeError) /\
  get_pyrevit_env_var DEBUG_ISC_NAME
    (envvars (set_debug_mode 0 (get_logger "" fresh_session).2).1) = None /\
  hndlr_level (set_debug_mode 0 (get_logger "" fresh_session).2).1 stdout_hndlr
    = WARNING.
Proof. by vm_compute. Qed.

(** C7, amended: for every [LoggerWrapper] that has a first handler
    [hndlr], [set_debug_mode] returns normally and leaves the debug session
    variable true, the verbose one false and [hndlr] at [DEBUG];
    [set_verbose_mode] leaves verbose true, debug false and [hndlr] at
    [INFO]; [reset_level] leaves both false and [hndlr] at the runtime
    logging level.  A script that imports the module afterwards in the same
    session derives its runtime level from these variables: [DEBUG], [INFO]
    and [WARNING] respectively (the latter two unless debug mode is
    forced). *)
Theorem level_methods_set_session_flags
    (w : World) (self : nat) (hndlr : Hndlr) (others : list Hndlr) :
  self <> 0%nat ->
  handlers <$> heap w !! self = Some (hndlr :: others) ->
  ((set_debug_mode self w).2 = Ok tt /\
   get_pyrevit_env_var DEBUG_ISC_NAME (envvars (set_debug_mode self w).1) = Some true /\
   get_pyrevit_env_var VERBOSE_ISC_NAME (envvars (set_debug_mode self w).1) = Some false /\
   hndlr_level (set_debug_mode self w).1 hndlr = DEBUG /\
   forall forced,
     runtime_logging_level {| doc_mode := false; forced_debug_mode := forced |}
       (envvars (set_debug_mode self w).1) = DEBUG) /\
  ((set_verbose_mode self w).2 = Ok tt /\
   get_pyrevit_env_var VERBOSE_ISC_NAME (envvars (set_verbose_mode self w).1) = Some true /\
   get_pyrevit_env_var DEBUG_ISC_NAME (envvars (set_verbose_mode self w).1) = Some false /\
   hndlr_level (set_verbose_mode self w).1 hndlr = INFO /\
   runtime_logging_level {| doc_mode := false; forced_debug_mode := false |}
     (envvars (set_verbose_mode self w).1) = INFO) /\
  ((reset_level self w).2 = Ok tt /\
   get_pyrevit_env_var VERBOSE_ISC_NAME (envvars (reset_level self w).1) = Some false /\
   get_pyrevit_env_var DEBUG_ISC_NAME (envvars (reset_level self w).1) = Some false /\
   hndlr_level (reset_level self w).1 hndlr = RUNTIME_LOGGING_LEVEL w /\
   runtime_logging_level {| doc_mode := false; forced_debug_mode := false |}
     (envvars (reset_level self w).1) = WARNING).
Proof.
  intros Hself Hfirst.
  assert (Hstep : forall verbose debug lvl,
    set_first_handler_level self lvl (_reset_logger_env_vars verbose debug w) =
    (setLevel hndlr lvl (_reset_logger_env_vars verbose debug w), Ok tt)).
  { intros verbose debug lvl. by eapply set_first_handler_level_ok. }
  assert (Hlevel : forall verbose debug forced,
    runtime_logging_level {| doc_mode := false; forced_debug_mode := forced |}
      (envvars (_reset_logger_env_vars verbose debug w)) =
    if debug || forced then DEBUG else if verbose then INFO else WARNING).
  { intros verbose debug forced. rewrite runtime_logging_level_cases.
    destruct (envvars_after_reset verbose debug w) as [-> ->]. done. }
  pose proof (envvars_after_reset false true w) as [Hv1 Hd1].
  pose proof (envvars_after_reset true false w) as [Hv2 Hd2].
  pose proof (envvars_after_reset false false w) as [Hv3 Hd3].
  unfold set_debug_mode, set_verbose_mode, reset_level.
  rewrite !wrapper_method_wrapper by done.
  rewrite !Hstep. cbn [fst snd].
  repeat split; try done; try apply hndlr_level_setLevel.
  - intros forced. apply (Hlevel false true forced).
  - apply (Hlevel true false false).
  - apply (Hlevel false false false).
Qed.

Lemma level_methods_set_session_flags_witness :
  (set_debug_mode 1 (get_logger "script" fresh_session).2).2 = Ok tt /\
  hndlr_level (set_debug_mode 1 (get_logger "script" fresh_session).2).1
    stdout_hndlr = DEBUG.
Proof.
  pose proof (level_methods_set_session_flags
                (get_logger "script" fresh_session).2 1 stdout_hndlr []
                ltac:(discriminate) ltac:(reflexivity)) as H.
  split; [exact (proj1 (proj1 H)) |].
  exact (proj1 (proj2 (proj2 (proj2 (proj1 H))))).
Defined.

(** A logger with a handler has the least of [CRITICAL] and its handler
    levels as effective level, whatever its own level and its parent: the
    level put on a shared handler through one logger is the effective level
    of every logger that has only this handler. *)
Lemma effective_level_of_configured_logger
    (w : World) (l : Logger) (parent : option LoggerNode) :
  handlers l <> [] ->
  getEffectiveLevel (node_of w l parent) = least CRITICAL (hndlr_level w <$> handlers l).
Proof.
  intros Hne. cbn [node_of getEffectiveLevel].
  destruct (handlers l) as [|h hs]; [done |]. cbn [fmap list_fmap length].
  change (0 <? S _)%nat with true. cbv iota.
  unfold lowest_handler_level. apply lowest_handler_level_from.
Qed.

(** *** The registry and the handlers of a logger *)

(** C1 fails on the code: in a fresh session [get_logger('a')] creates the
    logger named 'a' but files it under the key 'logger_name', not under
    'a'.  The second [get_logger('a')] therefore misses the registry and
    takes the creating branch again (it obtains the same object only from
    the name table of [logging]), and [get_logger('logger_name')] returns
    the logger named 'a'. *)
Theorem registry_is_keyed_by_a_constant :
  (get_logger "a" fresh_session).1 = 1%nat /\
  name <$> heap (get_logger "a" fresh_session).2 !! 1%nat = Some "a" /\
  loggers (get_logger "a" fresh_session).2 !! "a" = None /\
  loggers (get_logger "a" fresh_session).2 !! "logger_name" = Some 1%nat /\
  loggers (get_logger "a" (get_logger "a" fresh_session).2).2 !! "a" = None /\
  (get_logger "logger_name" (get_logger "a" fresh_session).2).1 = 1%nat /\
  (get_logger "b" (get_logger "a" fresh_session).2).1 = 2%nat /\
  loggers (get_logger "b" (get_logger "a" fresh_session).2).2 !! "logger_name"
    = Some 2%nat.
Proof. by vm_compute. Qed.

(** C2, as stated, fails: file logging is off after the import, and the
    logger that [get_logger] then creates has the console handler only. *)
Lemma default_logger_has_no_file_handler :
  FILE_LOGGING_STATUS fresh_session = false /\
  handlers_of (get_logger "a" fresh_session).2 (get_logger "a" fresh_session).1
    = [stdout_hndlr] /\
  file_hndlr ∉ handlers_of (get_logger "a" fresh_session).2
                 (get_logger "a" fresh_session).1.
Proof.
  split; [done |]. split; [by vm_compute |].
  change (file_hndlr ∉ [stdout_hndlr]).
  by intros [?|?%elem_of_nil]%elem_of_cons.
Qed.

(** C10 fails on the code: the logger 'a' exists before
    [set_file_logging(True)]; the call itself leaves its handlers alone,
    but the next [get_logger('a')] misses the registry (see C1), runs the
    creating branch on the existing logger and attaches the file handler to
    it.  Once attached the handler also stays after
    [set_file_logging(False)]. *)
Theorem existing_logger_gains_file_handler :
  handlers_of (get_logger "a" fresh_session).2 1 = [stdout_hndlr] /\
  handlers_of (set_file_logging true (get_logger "a" fresh_session).2) 1
    = [stdout_hndlr] /\
  (get_logger "a" (set_file_logging true (get_logger "a" fresh_session).2)).1
    = (get_logger "a" fresh_session).1 /\
  handlers_of
    (get_logger "a" (set_file_logging true (get_logger "a" fresh_session).2)).2 1
    = [stdout_hndlr; file_hndlr] /\
  handlers_of
    (get_logger "a"
       (set_file_logging false
          (get_logger "a"
             (set_file_logging true (get_logger "a" fresh_session).2)).2)).2 1
    = [stdout_hndlr; file_hndlr].
Proof. by vm_compute. Qed.

(** [set_file_logging] writes the flag and nothing else. *)
Lemma set_file_logging_frame (status : bool) (w : World) :
  FILE_LOGGING_STATUS (set_file_logging status w) = status /\
  heap (set_file_logging status w) = heap w /\
  loggerDict (set_file_logging status w) = loggerDict w /\
  loggers (set_file_logging status w) = loggers w /\
  envvars (set_file_logging status w) = envvars w /\
  stdout_level (set_file_logging status w) = stdout_level w /\
  file_level (set_file_logging status w) = file_level w /\
  RUNTIME_LOGGING_LEVEL (set_file_logging status w) = RUNTIME_LOGGING_LEVEL w /\
  forall logger, handlers_of (set_file_logging status w) logger = handlers_of w logger.
Proof. done. Qed.

Lemma get_logger_hit (n : string) (w : World) (logger : nat) :
  loggers w !! n = Some logger -> get_logger n w = (logger, w).
Proof. unfold get_logger. by intros ->. Qed.

Lemma get_logger_miss (n : string) (w : World) :
  loggers w !! n = None ->
  get_logger n w =
    (let w1 := (logging_getLogger n w).2 in
     let logger := (logging_getLogger n w).1 in
     (logger,
      with_loggers ({["logger_name" := logger]} ∪ loggers w)
        (with_heap (alter (configured (FILE_LOGGING_STATUS w)) logger (heap w1))
           w1))).
Proof.
  intros Hmiss. unfold get_logger. rewrite Hmiss.
  assert (Hstatus : FILE_LOGGING_STATUS (logging_getLogger n w).2
                    = FILE_LOGGING_STATUS w /\
                    loggers (logging_getLogger n w).2 = loggers w).
  { unfold logging_getLogger. case_decide; [done |].
    by destruct (loggerDict w !! n). }
  destruct Hstatus as [Hstatus Hloggers].
  destruct (logging_getLogger n w) as [logger w1]. cbn [fst snd] in *.
  cbn [addHandler set_propagate with_heap heap FILE_LOGGING_STATUS loggers
       with_loggers envvars RUNTIME_LOGGING_LEVEL stdout_level file_level
       loggerDict].
  rewrite Hstatus.
  assert (Hext : forall (f g : Logger -> Logger) (l : list Logger),
             (forall x, f x = g x) -> alter f logger l = alter g logger l).
  { intros f g l Hfg. by apply list_alter_ext. }
  destruct (FILE_LOGGING_STATUS w);
    unfold addHandler, set_propagate, with_heap, with_loggers; cbn;
    rewrite !list_alter_alter_eq, Hloggers; do 3 f_equal; by apply Hext.
Qed.

Lemma logging_getLogger_cases (n : string) (w : World) :
  wf w ->
  ((logging_getLogger n w).2 = w /\
   ((logging_getLogger n w).1 < length (heap w))%nat) \/
  (n <> "" /\ loggerDict w !! n = None /\
   (logging_getLogger n w).1 = length (heap w) /\
   heap (logging_getLogger n w).2 =
     (heap w ++ [{| name := n; level := NOTSET; handlers := [];
                    propagate := true |}])%list /\
   loggerDict (logging_getLogger n w).2 = <[n := length (heap w)]> (loggerDict w)).
Proof.
  intros Hwf. unfold logging_getLogger. case_decide as Hn.
  - left. split; [done |]. apply Hwf.
  - destruct (loggerDict w !! n) as [a|] eqn:Hdict.
    + left. split; [done |]. by apply (wf_dict w Hwf n).
    + by right.
Qed.

Lemma add_handler_elem (hdlr : Hndlr) (hs : list Hndlr) :
  hdlr ∈ add_handler hdlr hs.
Proof.
  unfold add_handler. case_decide; [done |].
  apply elem_of_app. right. by apply list_elem_of_singleton.
Qed.

Lemma add_handler_inv (hdlr h : Hndlr) (hs : list Hndlr) :
  h ∈ add_handler hdlr hs -> h = hdlr \/ h ∈ hs.
Proof.
  unfold add_handler. case_decide; [by right |].
  intros [Hin | Hin%list_elem_of_singleton]%elem_of_app; [by right | by left].
Qed.

Lemma add_handler_head (hdlr h : Hndlr) (hs : list Hndlr) :
  exists rest, add_handler hdlr (h :: hs) = h :: rest.
Proof. unfold add_handler. case_decide; by eexists. Qed.

Lemma configured_head (status : bool) (l : Logger) :
  (handlers l = [] \/ exists rest, handlers l = stdout_hndlr :: rest) ->
  exists rest, handlers (configured status l) = stdout_hndlr :: rest.
Proof.
  intros Hhead. cbn [configured handlers].
  assert (exists rest, add_handler stdout_hndlr (handlers l) = stdout_hndlr :: rest)
    as [rest Hrest].
  { destruct Hhead as [-> | [rest ->]]; [by exists [] |]. apply add_handler_head. }
  rewrite Hrest. destruct status; [apply add_handler_head | by eexists].
Qed.

(** The handlers of the logger that [get_logger] hands out on a miss. *)
Lemma get_logger_miss_handlers (n : string) (w : World) :
  wf w -> loggers w !! n = None ->
  handlers_of (get_logger n w).2 (get_logger n w).1 =
    handlers (configured (FILE_LOGGING_STATUS w)
                {| name := n; level := NOTSET;
                   handlers := handlers_of w (get_logger n w).1;
                   propagate := true |}).
Proof.
  intros Hwf Hmiss. rewrite (get_logger_miss n w Hmiss). cbn [fst snd].
  unfold handlers_of at 1. cbn [heap with_loggers with_heap].
  rewrite list_lookup_alter_eq.
  destruct (logging_getLogger_cases n w Hwf)
    as [[-> Hlt] | (_ & _ & -> & -> & _)].
  - unfold handlers_of. apply lookup_lt_is_Some in Hlt as [l ->]. done.
  - unfold handlers_of.
    rewrite lookup_app_r, Nat.sub_diag by done.
    rewrite (lookup_ge_None_2 (heap w) (length (heap w))) by done. done.
Qed.

Lemma get_logger_other_handlers (n : string) (w : World) (other : nat) :
  wf w -> other <> (get_logger n w).1 ->
  handlers_of (get_logger n w).2 other = handlers_of w other.
Proof.
  intros Hwf Hother.
  destruct (loggers w !! n) as [a|] eqn:Hreg.
  { by rewrite (get_logger_hit n w a Hreg). }
  rewrite (get_logger_miss n w Hreg) in Hother |- *. cbn [fst snd] in *.
  unfold handlers_of. cbn [heap with_loggers with_heap].
  rewrite list_lookup_alter_ne by done.
  destruct (logging_getLogger_cases n w Hwf)
    as [[-> _] | (_ & _ & Hnew & -> & _)]; [done |].
  rewrite Hnew in Hother.
  destruct (decide (other < length (heap w))%nat) as [Hlt|Hge].
  - by rewrite lookup_app_l.
  - rewrite !lookup_ge_None_2; [done | lia |]. rewrite length_app. simpl. lia.
Qed.

Lemma wf_import (params : ExecParams) (env : gmap string bool) :
  wf (import_logger params env).
Proof.
  split; cbn [import_logger heap loggerDict loggers length].
  - lia.
  - intros n a Hn. by rewrite lookup_empty in Hn.
  - intros k _. apply lookup_empty.
  - intros k a Hk. by rewrite lookup_empty in Hk.
  - intros [|[|a]]; by left.
Qed.

Lemma wf_same_objects (w w' : World) :
  heap w' = heap w -> loggerDict w' = loggerDict w -> loggers w' = loggers w ->
  wf w -> wf w'.
Proof.
  intros Hheap Hdict Hreg [H1 H2 H3 H4 H5].
  split; unfold handlers_of in *; rewrite ?Hheap, ?Hdict, ?Hreg; done.
Qed.

Lemma set_first_handler_level_objects (self : nat) (lvl : Z) (w : World) :
  heap (set_first_handler_level self lvl w).1 = heap w /\
  loggerDict (set_first_handler_level self lvl w).1 = loggerDict w /\
  loggers (set_first_handler_level self lvl w).1 = loggers w.
Proof.
  unfold set_first_handler_level.
  destruct (handlers <$> heap w !! self) as [[|h hs]|]; done.
Qed.

Lemma wf_get_logger (n : string) (w : World) : wf w -> wf (get_logger n w).2.
Proof.
  intros Hwf.
  destruct (loggers w !! n) as [a|] eqn:Hreg.
  { by rewrite (get_logger_hit n w a Hreg). }
  assert (Hfirst : forall b, handlers_of (get_logger n w).2 b = [] \/
            exists rest, handlers_of (get_logger n w).2 b = stdout_hndlr :: rest).
  { intros b. destruct (decide (b = (get_logger n w).1)) as [-> | Hne].
    - right. rewrite (get_logger_miss_handlers n w Hwf Hreg).
      apply configured_head. apply (wf_first w Hwf).
    - rewrite (get_logger_other_handlers n w b Hwf Hne). apply (wf_first w Hwf). }
  assert (Hreturned : exists rest,
            handlers_of (get_logger n w).2 (get_logger n w).1 = stdout_hndlr :: rest).
  { rewrite (get_logger_miss_handlers n w Hwf Hreg).
    apply configured_head. apply (wf_first w Hwf). }
  revert Hfirst Hreturned. rewrite (get_logger_miss n w Hreg). cbn [fst snd].
  intros Hfirst Hreturned.
  split; cbn [heap loggerDict loggers with_loggers with_heap]; try done.
  - rewrite length_alter.
    destruct (logging_getLogger_cases n w Hwf) as [[-> _] | (_ & _ & _ & -> & _)].
    + apply Hwf.
    + rewrite length_app. simpl. lia.
  - intros m a. rewrite length_alter.
    destruct (logging_getLogger_cases n w Hwf)
      as [[-> _] | (_ & _ & _ & -> & ->)].
    + apply Hwf.
    + rewrite length_app. simpl. intros Hm.
      apply lookup_insert_Some in Hm as [[_ <-] | [_ Hm]]; [lia |].
      apply (wf_dict w Hwf) in Hm. lia.
  - intros k Hk. apply lookup_union_None. split.
    + by apply lookup_singleton_ne.
    + by apply (wf_keys w Hwf).
  - intros k a Hk. destruct (decide (k = "logger_name")) as [-> | Hne].
    + rewrite lookup_union_l' in Hk by (rewrite lookup_singleton_eq; by eexists).
      rewrite lookup_singleton_eq in Hk. injection Hk as <-. apply Hreturned.
    + apply lookup_union_Some_raw in Hk as [Hk | [_ Hk]].
      * by rewrite lookup_singleton_ne in Hk.
      * by rewrite (wf_keys w Hwf k Hne) in Hk.
Qed.

Lemma wrapper_method_world {A} (P : World -> Prop) (self : nat) (w : World)
    (body : World * Result A) :
  P w -> P body.1 -> P (wrapper_method self w body).1.
Proof. intros Hw Hbody. unfold wrapper_method. by case_decide. Qed.

Lemma wf_call (c : Call) (w : World) : wf w -> wf (call c w).
Proof.
  intros Hwf. destruct c as [n | status | self lvl | self | self | self];
    cbn [call]; unfold set_level, set_verbose_mode, set_debug_mode, reset_level;
    try (apply wrapper_method_world; [done |]).
  - by apply wf_get_logger.
  - by apply (wf_same_objects w).
  - destruct (set_first_handler_level_objects self lvl w) as (? & ? & ?).
    by apply (wf_same_objects w).
  - destruct (set_first_handler_level_objects self INFO
                (_reset_logger_env_vars true false w)) as (? & ? & ?).
    by apply (wf_same_objects w).
  - destruct (set_first_handler_level_objects self DEBUG
                (_reset_logger_env_vars false true w)) as (? & ? & ?).
    by apply (wf_same_objects w).
  - destruct (set_first_handler_level_objects self
                (RUNTIME_LOGGING_LEVEL (_reset_logger_env_vars false false w))
                (_reset_logger_env_vars false false w)) as (? & ? & ?).
    by apply (wf_same_objects w).
Qed.

Lemma reachable_wf (w : World) : reachable w -> wf w.
Proof.
  induction 1 as [params env | c w _ IH]; [apply wf_import | by apply wf_call].
Qed.

(** Whatever a session does, the registry never has a key other than
    'logger_name': no logger is ever filed under its own name. *)
Lemma registry_has_one_key (w : World) (k : string) :
  reachable w -> k <> "logger_name" -> loggers w !! k = None.
Proof. intros Hw. apply (wf_keys w (reachable_wf w Hw)). Qed.

(** Every logger handed out by [get_logger] has the console handler as its
    first handler, so the level methods do not raise on it. *)
Lemma get_logger_first_handler (w : World) (n : string) :
  reachable w ->
  exists rest,
    handlers_of (get_logger n w).2 (get_logger n w).1 = stdout_hndlr :: rest.
Proof.
  intros Hwf%reachable_wf.
  destruct (loggers w !! n) as [a|] eqn:Hreg.
  - rewrite (get_logger_hit n w a Hreg). cbn [fst snd].
    by apply (wf_registered w Hwf n).
  - rewrite (get_logger_miss_handlers n w Hwf Hreg).
    apply configured_head. apply (wf_first w Hwf).
Qed.

(** A logger that [get_logger] creates after [set_file_logging(status)]
    has the console handler, and the file handler exactly when [status] is
    true. *)
Lemma new_logger_follows_status (w : World) (n : string) (status : bool) :
  reachable w -> n <> "" -> loggerDict w !! n = None ->
  loggers w !! n = None ->
  handlers_of (get_logger n (set_file_logging status w)).2
              (get_logger n (set_file_logging status w)).1
  = if status then [stdout_hndlr; file_hndlr] else [stdout_hndlr].
Proof.
  intros Hw Hn Hdict Hreg.
  assert (Hwf : wf (set_file_logging status w)).
  { apply (wf_call (CallSetFileLogging status)). by apply reachable_wf. }
  rewrite (get_logger_miss_handlers n _ Hwf) by done.
  rewrite (get_logger_miss n _) by done. cbn [fst snd].
  destruct (logging_getLogger_cases n _ Hwf)
    as [[_ Hlt] | (_ & _ & Hnew & _ & _)].
  - exfalso. revert Hlt. unfold logging_getLogger.
    rewrite decide_False by done. cbn [set_file_logging with_file_logging_status
      loggerDict heap]. rewrite Hdict. cbn [fst]. lia.
  - rewrite Hnew. unfold handlers_of.
    rewrite lookup_ge_None_2 by done.
    by destruct status.
Qed.

(** C2, amended: every logger handed out by [get_logger] writes to the
    console handler.  It writes to the session log file only if file
    logging was switched on when [get_logger] set it up (or the logger had
    the file handler before); a logger set up while file logging is on has
    the file handler, and file logging is off after the import. *)
Theorem get_logger_handlers (w : World) (n : string) :
  reachable w ->
  stdout_hndlr ∈ handlers_of (get_logger n w).2 (get_logger n w).1 /\
  (loggers w !! n = None -> FILE_LOGGING_STATUS w = true ->
   file_hndlr ∈ handlers_of (get_logger n w).2 (get_logger n w).1) /\
  (file_hndlr ∈ handlers_of (get_logger n w).2 (get_logger n w).1 ->
   FILE_LOGGING_STATUS w = true \/ file_hndlr ∈ handlers_of w (get_logger n w).1) /\
  (forall params env, FILE_LOGGING_STATUS (import_logger params env) = false).
Proof.
  intros Hw. pose proof (reachable_wf w Hw) as Hwf.
  split.
  { destruct (get_logger_first_handler w n Hw) as [rest ->].
    apply elem_of_cons. by left. }
  split; [| split; [| done]].
  - intros Hreg Hstatus.
    rewrite (get_logger_miss_handlers n w Hwf Hreg), Hstatus.
    cbn [configured handlers]. apply add_handler_elem.
  - destruct (loggers w !! n) as [a|] eqn:Hreg.
    { rewrite (get_logger_hit n w a Hreg). cbn [fst snd]. by right. }
    rewrite (get_logger_miss_handlers n w Hwf Hreg).
    destruct (FILE_LOGGING_STATUS w); [by left |].
    cbn [configured handlers]. intros [[=] | Hin]%add_handler_inv. by right.
Qed.

Lemma get_logger_handlers_witness :
  stdout_hndlr ∈ handlers_of (get_logger "script" fresh_session).2
                   (get_logger "script" fresh_session).1.
Proof.
  apply (get_logger_handlers fresh_session "script").
  apply reachable_import.
Defined.

(** * Further properties *)

(** ** Application-data directories *)

Section AppDirsFurther.
Context `{FileSystem}.

Lemma ensure_app_dirs_no_os_error
    (dirs : list string) (st : ImportState) (e : Exn) :
  ensure_app_dirs dirs st = Raise e ->
  (forall rendered, e <> OSError rendered) /\
  (forall rendered, e <> IOException rendered).
Proof.
  revert st. induction dirs as [|d dirs IH]; intros st; [done |].
  cbn [ensure_app_dirs].
  destruct (isdir (fs st) d); [apply IH |].
  destruct (mkdir (fs st) d) as [fs'|x]; [apply IH |].
  destruct x; try (intros [= <-]; by split);
    rewrite access_message; intros [= <-]; by split.
Qed.

(** X1: when the loop reaches a missing directory [d] on which [os.mkdir]
    raises [x], the import ends in the [PyRevitException] about [d] if [x]
    is an [OSError] or an [IOException], and in [x] itself if it is any
    other exception; so, whatever the file system does, the loop never ends
    in an [OSError] or an [IOException]. *)
Theorem ensure_app_dirs_never_raises_os_error (st : ImportState) :
  (forall before after d x st',
     ensure_app_dirs before st = Ok st' ->
     isdir (fs st') d = false ->
     mkdir (fs st') d = Raise x ->
     ensure_app_dirs (before ++ d :: after) st =
     Raise (match x with
            | OSError err | IOException err =>
                PyRevitException
                  ("Can not access pyRevit folder at: " +:+ d +:+ " | " +:+ err)
            | _ => x
            end)) /\
  (forall dirs e,
     ensure_app_dirs dirs st = Raise e ->
     (forall rendered, e <> OSError rendered) /\
     (forall rendered, e <> IOException rendered)).
Proof.
  split; [| intros dirs e; apply ensure_app_dirs_no_os_error].
  intros before after d x st' Hbefore Hmissing Hmkdir.
  rewrite ensure_app_dirs_app, Hbefore.
  change (ensure_app_dirs (d :: after) st' =
          Raise (match x with
                 | OSError err | IOException err =>
                     PyRevitException
                       ("Can not access pyRevit folder at: " +:+ d +:+ " | " +:+ err)
                 | _ => x
                 end)).
  cbn [ensure_app_dirs]. rewrite Hmissing, Hmkdir.
  destruct x; try done; by rewrite access_message.
Qed.

(** X2: when every directory of the list exists already, the loop creates
    nothing and appends nothing to [sys.path]. *)
Theorem ensure_app_dirs_existing_unchanged
    (dirs : list string) (st : ImportState) :
  Forall (fun d => isdir (fs st) d = true) dirs ->
  ensure_app_dirs dirs st = Ok st.
Proof.
  induction 1 as [|d dirs Hd _ IH]; [done |].
  cbn [ensure_app_dirs]. by rewrite Hd.
Qed.

Lemma ensure_app_dirs_extends_sys_path
    (dirs : list string) (st st' : ImportState) :
  ensure_app_dirs dirs st = Ok st' ->
  exists created,
    sys_path st' = (sys_path st ++ created)%list /\ sublist created dirs.
Proof.
  revert st. induction dirs as [|d dirs IH]; intros st.
  - intros [= <-]. exists []. split; [by rewrite app_nil_r | done].
  - cbn [ensure_app_dirs].
    destruct (isdir (fs st) d).
    + intros Hrest. destruct (IH st Hrest) as (created & Hpath & Hsub).
      exists created. split; [done |]. by apply sublist_cons.
    + destruct (mkdir (fs st) d) as [fs'|x].
      * intros Hrest. destruct (IH _ Hrest) as (created & Hpath & Hsub).
        exists (d :: created). cbn [sys_path] in Hpath.
        split; [by rewrite Hpath, <- app_assoc | by apply sublist_skip].
      * destruct x; try done; by rewrite access_message.
Qed.

(** X3: in a run of the loop that succeeds, a directory [d] of the list is
    appended to [sys.path] exactly when it did not exist at the moment the
    loop reached it: then [os.mkdir] was called on it, succeeded, and [d]
    comes right after what the earlier directories added; a directory that
    existed is skipped without any change.  Over the whole run [sys.path]
    only grows at its end, by directories of the list in their order. *)
Theorem ensure_app_dirs_appends_created
    (before after : list string) (d : string) (st st' : ImportState) :
  ensure_app_dirs (before ++ d :: after) st = Ok st' ->
  exists st1 st2,
    ensure_app_dirs before st = Ok st1 /\
    ensure_app_dirs after st2 = Ok st' /\
    ((isdir (fs st1) d = true /\ st2 = st1) \/
     (isdir (fs st1) d = false /\
      exists fs', mkdir (fs st1) d = Ok fs' /\
                  st2 = {| fs := fs'; sys_path := sys_path st1 ++ [d] |})) /\
    exists earlier later,
      sys_path st1 = (sys_path st ++ earlier)%list /\
      sys_path st' = (sys_path st2 ++ later)%list /\
      sublist earlier before /\ sublist later after.
Proof.
  rewrite ensure_app_dirs_app.
  destruct (ensure_app_dirs before st) as [st1|e] eqn:Hbefore; [| done].
  change (ensure_app_dirs (d :: after) st1 = Ok st' ->
          exists st0 st2 : ImportState,
            Ok st1 = Ok st0 /\ ensure_app_dirs after st2 = Ok st' /\
            (isdir (fs st0) d = true /\ st2 = st0 \/
             isdir (fs st0) d = false /\
             (exists fs', mkdir (fs st0) d = Ok fs' /\
                          st2 = {| fs := fs'; sys_path := sys_path st0 ++ [d] |})) /\
            (exists earlier later : list string,
               sys_path st0 = (sys_path st ++ earlier)%list /\
               sys_path st' = (sys_path st2 ++ later)%list /\
               sublist earlier before /\ sublist later after)).
  destruct (ensure_app_dirs_extends_sys_path before st st1 Hbefore)
    as (earlier & Hearlier & Hsub1).
  cbn [ensure_app_dirs].
  destruct (isdir (fs st1) d) eqn:Hdir.
  - intros Hafter.
    destruct (ensure_app_dirs_extends_sys_path after st1 st' Hafter)
      as (later & Hlater & Hsub2).
    exists st1, st1. repeat split; try done; [by left |].
    by exists earlier, later.
  - destruct (mkdir (fs st1) d) as [fs'|x] eqn:Hmkdir.
    + intros Hafter.
      destruct (ensure_app_dirs_extends_sys_path after _ st' Hafter)
        as (later & Hlater & Hsub2).
      eexists st1, _. repeat split; try done; [right; split; [done | by eexists] |].
      by exists earlier, later.
    + destruct x; try done; by rewrite access_message.
Qed.
End AppDirsFurther.

Lemma ensure_app_dirs_never_raises_os_error_witness :
  @ensure_app_dirs broken_fs ["C:\appdata\pyRevit"; "C:\appdata\pyRevit\2017"]
    {| fs := tt : @FS broken_fs; sys_path := [] |} =
  Raise (OtherError "TypeError: expected a string").
Proof.
  apply (proj1 (@ensure_app_dirs_never_raises_os_error broken_fs
                  {| fs := tt : @FS broken_fs; sys_path := [] |})
           [] ["C:\appdata\pyRevit\2017"] "C:\appdata\pyRevit"
           (OtherError "TypeError: expected a string")
           {| fs := tt : @FS broken_fs; sys_path := [] |}).
  - reflexivity.
  - reflexivity.
  - reflexivity.
Defined.

Lemma ensure_app_dirs_existing_unchanged_witness :
  @ensure_app_dirs full_fs ["C:\appdata\pyRevit"; "C:\appdata\pyRevit\2017"]
    {| fs := tt : @FS full_fs; sys_path := ["C:\lib"] |} =
  Ok {| fs := tt : @FS full_fs; sys_path := ["C:\lib"] |}.
Proof.
  apply (@ensure_app_dirs_existing_unchanged full_fs).
  repeat constructor.
Defined.

Lemma ensure_app_dirs_appends_created_witness :
  exists st1 st2,
    @ensure_app_dirs empty_fs [] {| fs := tt : @FS empty_fs; sys_path := ["C:\lib"] |}
      = Ok st1 /\
    @ensure_app_dirs empty_fs [] st2
      = Ok {| fs := tt : @FS empty_fs;
              sys_path := ["C:\lib"; "C:\appdata\pyRevit"] |} /\
    ((@isdir empty_fs (fs st1) "C:\appdata\pyRevit" = true /\ st2 = st1) \/
     (@isdir empty_fs (fs st1) "C:\appdata\pyRevit" = false /\
      exists fs', @mkdir empty_fs (fs st1) "C:\appdata\pyRevit" = Ok fs' /\
                  st2 = {| fs := fs';
                           sys_path := sys_path st1 ++ ["C:\appdata\pyRevit"] |})) /\
    exists earlier later,
      sys_path st1 = (["C:\lib"] ++ earlier)%list /\
      ["C:\lib"; "C:\appdata\pyRevit"] = (sys_path st2 ++ later)%list /\
      sublist earlier [] /\ sublist later [].
Proof.
  apply (@ensure_app_dirs_appends_created empty_fs [] [] "C:\appdata\pyRevit"
           {| fs := tt : @FS empty_fs; sys_path := ["C:\lib"] |}
           {| fs := tt : @FS empty_fs;
              sys_path := ["C:\lib"; "C:\appdata\pyRevit"] |}).
  reflexivity.
Defined.

(** ** Host identity *)

Lemma before_first_id (c : ascii) (s : string) :
  ~ occurs c s -> before_first c s = s.
Proof.
  induction s as [|x s IH]; simpl; [done |]. intros Hfree.
  destruct (Ascii.eqb_spec x c) as [->|Hne]; [tauto |].
  rewrite IH; tauto.
Qed.

Lemma delete_char_id (c : ascii) (s : string) :
  ~ occurs c s -> delete_char c s = s.
Proof.
  induction s as [|x s IH]; simpl; [done |]. intros Hfree.
  destruct (Ascii.eqb_spec x c) as [->|Hne]; [tauto |].
  rewrite IH; tauto.
Qed.

Lemma username_eq (h : HostApplication) :
  username h = delete_char "." (before_first "@" (Username h)).
Proof.
  unfold username. destruct (split_head "@" (Username h)) as [pieces ->].
  simpl. apply replace_empty.
Qed.

(** X4: a user name without ['@'] and without ['.'] is returned as it is,
    and cleaning a cleaned name changes nothing. *)
Theorem username_fixes_clean_names :
  (forall h, ~ occurs "@" (Username h) -> ~ occurs "." (Username h) ->
             username h = Username h) /\
  (forall h v p,
     username {| VersionNumber := v; Username := username h; ProcessId := p |}
     = username h).
Proof.
  assert (Hclean : forall h, ~ occurs "@" (Username h) ->
                             ~ occurs "." (Username h) ->
                             username h = Username h).
  { intros h Hat Hdot. rewrite username_eq.
    rewrite before_first_id by done. by apply delete_char_id. }
  split; [exact Hclean |].
  intros h v p. apply Hclean; cbn [Username]; rewrite username_eq.
  - apply delete_char_keeps_free, before_first_free.
  - apply delete_char_free.
Qed.

Lemma username_fixes_clean_names_witness :
  username {| VersionNumber := "2017"; Username := "jdoe"; ProcessId := 7 |}
  = "jdoe".
Proof.
  apply (proj1 username_fixes_clean_names
           {| VersionNumber := "2017"; Username := "jdoe"; ProcessId := 7 |}).
  - cbn. intros H. decompose [or] H; discriminate || done.
  - cbn. intros H. decompose [or] H; discriminate || done.
Defined.

(** ** Version comparison *)

Section VersionComparison.
Context `{PyInt}.

(** X5: [is_newer_than] and [is_older_than] raise together, with the same
    exception, and when they return they are never both true; both are
    false exactly when the two versions are the same number. *)
Theorem version_comparisons_exclude_each_other
    (h : HostApplication) (v : VersionArg) :
  (forall e, is_newer_than h v = Raise e <-> is_older_than h v = Raise e) /\
  (is_newer_than h v = Ok true -> is_older_than h v = Ok false) /\
  (is_older_than h v = Ok true -> is_newer_than h v = Ok false) /\
  (is_newer_than h v = Ok false /\ is_older_than h v = Ok false <->
   exists n, int_of_str (version h) = Ok n /\ int_of_arg v = Ok n).
Proof.
  unfold is_newer_than, is_older_than.
  destruct (int_of_str (version h)) as [mine|e1]; cbn [mbind result_bind].
  2: { split; [done |]. split; [done |]. split; [done |].
       split; [by intros [[=] _] | by intros (n & [=] & _)]. }
  destruct (int_of_arg v) as [other|e2]; cbn [mbind result_bind].
  2: { split; [done |]. split; [done |]. split; [done |].
       split; [by intros [[=] _] | by intros (n & _ & [=])]. }
  split; [done |]. split; [| split].
  - intros [= Hlt]. f_equal. apply Z.ltb_lt in Hlt. apply Z.ltb_ge. lia.
  - intros [= Hlt]. f_equal. apply Z.ltb_lt in Hlt. apply Z.ltb_ge. lia.
  - split.
    + intros [[= H1] [= H2]]. apply Z.ltb_ge in H1, H2.
      exists mine. split; [done |]. f_equal. lia.
    + intros (n & [= <-] & [= <-]). by rewrite Z.ltb_irrefl.
Qed.
End VersionComparison.

Lemma version_comparisons_exclude_each_other_witness :
  @is_older_than numeral_int
    {| VersionNumber := "2017"; Username := "jdoe"; ProcessId := 7 |}
    (VersionInt 2016) = Ok false.
Proof.
  apply (proj1 (proj2 (@version_comparisons_exclude_each_other numeral_int
           {| VersionNumber := "2017"; Username := "jdoe"; ProcessId := 7 |}
           (VersionInt 2016)))).
  reflexivity.
Defined.

(** ** [PyRevitException.__str__] *)

(** X6: while an exception is being handled and the first argument can be
    formatted, [__str__] is the formatted first argument, an empty line, the
    title 'Traceback:' and the first traceback entry; further arguments and
    further traceback entries do not show. *)
Theorem PyRevitException_str_reports_first_entry
    (message : PyVal) (more : list PyVal) (entry : string)
    (entries : list string) (m : string) :
  py_format message = Ok m ->
  PyRevitException_str {| args := message :: more;
                          exc_traceback := Some (entry :: entries) |}
  = Ok (m +:+ newline +:+ newline +:+ TRACEBACK_TITLE +:+ newline +:+ entry).
Proof.
  intros Hm. unfold PyRevitException_str, format_report.
  cbn [args exc_traceback format_tb index0 mbind result_bind].
  rewrite Hm. cbn [mbind result_bind]. by rewrite report_with_message.
Qed.

Lemma PyRevitException_str_reports_first_entry_witness :
  PyRevitException_str
    {| args := [{| py_str := Ok "no access"; py_format := Ok "no access";
                   py_repr := Ok "'no access'" |}];
       exc_traceback := Some ["  File a.py, line 1, in f"] |}
  = Ok ("no access" +:+ newline +:+ newline +:+ TRACEBACK_TITLE +:+ newline
        +:+ "  File a.py, line 1, in f").
Proof.
  apply (PyRevitException_str_reports_first_entry
           {| py_str := Ok "no access"; py_format := Ok "no access";
              py_repr := Ok "'no access'" |} [] "  File a.py, line 1, in f" []
           "no access").
  reflexivity.
Defined.

(** X7: outside of an [except] block there is no traceback to report, and
    [__str__] is the rendering of the base class whatever the arguments:
    the empty string without arguments, [str(args[0])] with one. *)
Theorem PyRevitException_str_without_traceback :
  (forall arguments,
     PyRevitException_str {| args := arguments; exc_traceback := None |}
     = Exception_str {| args := arguments; exc_traceback := None |}) /\
  PyRevitException_str {| args := []; exc_traceback := None |} = Ok "" /\
  (forall a,
     PyRevitException_str {| args := [a]; exc_traceback := None |} = py_str a) /\
  (forall arguments,
     PyRevitException_str {| args := arguments; exc_traceback := Some [] |}
     = Exception_str {| args := arguments; exc_traceback := Some [] |}).
Proof. repeat split. Qed.

(** ** Executor parameters *)

(** X8: what a setter of [_ExecutorParams] stores is what its getter
    returns, except that [window_handle] returns [None] for a stored value
    that is false; and a setter leaves every other parameter as it was. *)
Theorem executor_params_round_trip
    (value : Value) (builtins : gmap string Value) :
  command_name (set_command_name value builtins) = value /\
  command_path (set_command_path value builtins) = value /\
  window_handle (set_window_handle value builtins)
    = (if truth value then value else VNone) /\
  (command_path (set_command_name value builtins) = command_path builtins /\
   window_handle (set_command_name value builtins) = window_handle builtins /\
   forced_debug_mode_of (set_command_name value builtins)
     = forced_debug_mode_of builtins /\
   doc_mode_of (set_command_name value builtins) = doc_mode_of builtins) /\
  (command_name (set_command_path value builtins) = command_name builtins /\
   window_handle (set_command_path value builtins) = window_handle builtins /\
   forced_debug_mode_of (set_command_path value builtins)
     = forced_debug_mode_of builtins /\
   doc_mode_of (set_command_path value builtins) = doc_mode_of builtins) /\
  (command_name (set_window_handle value builtins) = command_name builtins /\
   command_path (set_window_handle value builtins) = command_path builtins /\
   forced_debug_mode_of (set_window_handle value builtins)
     = forced_debug_mode_of builtins /\
   doc_mode_of (set_window_handle value builtins) = doc_mode_of builtins).
Proof.
  unfold command_name, command_path, window_handle, forced_debug_mode_of,
    doc_mode_of, set_command_name, set_command_path, set_window_handle.
  rewrite !lookup_insert_eq.
  rewrite !lookup_insert_ne by done.
  done.
Qed.

(** X9: [FIRST_LOAD] is bound at the import and is true exactly when
    [__window__] was then unbound or bound to a false value; assigning
    [window_handle] afterwards changes what the getter returns but not
    [FIRST_LOAD]. *)
Theorem FIRST_LOAD_iff_no_window (builtins : gmap string Value) :
  (FIRST_LOAD (import_init builtins) = true <->
   builtins !! "__window__" = None \/
   exists v, builtins !! "__window__" = Some v /\ truth v = false) /\
  (forall value,
     FIRST_LOAD (assign_window_handle value (import_init builtins))
       = FIRST_LOAD (import_init builtins) /\
     window_handle
       (builtins_scope (assign_window_handle value (import_init builtins)))
       = (if truth value then value else VNone)).
Proof.
  split.
  - cbn [import_init FIRST_LOAD]. unfold window_handle.
    destruct (builtins !! "__window__") as [v|]; [| by split; [left |]].
    destruct (truth v) eqn:Hv.
    + split.
      * by destruct v.
      * intros [[=] | (v' & [= <-] & Hv')]. congruence.
    + split; [| done]. intros _. right. by exists v.
  - intros value. split; [done |].
    cbn [assign_window_handle builtins_scope import_init].
    unfold window_handle, set_window_handle. by rewrite lookup_insert_eq.
Qed.

Lemma replace_free (c : ascii) (s : string) :
  ~ occurs c (replace c "" s).
Proof. rewrite replace_empty. apply delete_char_free. Qed.

(** X10: the executor version is taken from the first assembly attribute
    whose type mentions 'AssemblyPyRevitVersion'; it is the attribute's
    first constructor argument without its double quotes, so it never
    contains a double quote.  The method returns [None] exactly when no
    attribute type mentions the marker, and raises [AttributeError] when the
    first matching attribute has no constructor argument. *)
Theorem executor_version_first_match (attrs : list CustomAttr) :
  (forall v, executor_version (Some attrs) = Returns (Some v) ->
             ~ occurs double_quote v) /\
  (executor_version (Some attrs) = Returns None <->
   Forall (fun a => contains "AssemblyPyRevitVersion" (AttributeType a) = false)
          attrs) /\
  (forall skipped a rest,
     attrs = (skipped ++ a :: rest)%list ->
     Forall (fun a => contains "AssemblyPyRevitVersion" (AttributeType a) = false)
            skipped ->
     contains "AssemblyPyRevitVersion" (AttributeType a) = true ->
     executor_version (Some attrs) =
       match ConstructorArguments a with
       | arg :: _ => Returns (Some (delete_char double_quote arg))
       | [] => RaisesAttributeError
       end).
Proof.
  cbn [executor_version]. split; [| split].
  - induction attrs as [|a attrs IH]; intros v; cbn [executor_version_loop];
      [done |].
    destruct (contains _ _); [| apply IH].
    destruct (ConstructorArguments a) as [|arg ?]; [done |].
    intros [= <-]. apply replace_free.
  - induction attrs as [|a attrs IH]; cbn [executor_version_loop]; [done |].
    destruct (contains _ _) eqn:Hc.
    + split.
      * by destruct (ConstructorArguments a).
      * intros Hall. apply Forall_cons in Hall as [Ha _]. congruence.
    + rewrite IH. split; [by constructor | by intros [_ ?]%Forall_cons].
  - intros skipped a rest -> Hskipped Ha.
    induction Hskipped as [|b skipped Hb _ IH]; cbn [app executor_version_loop].
    + rewrite Ha. destruct (ConstructorArguments a); [done |].
      by rewrite replace_empty.
    + by rewrite Hb.
Qed.

Lemma executor_version_first_match_witness :
  executor_version (Some [title_attr; version_attr]) = Returns (Some "4.2").
Proof.
  apply (proj2 (proj2 (executor_version_first_match [title_attr; version_attr]))
           [title_attr] version_attr []).
  - reflexivity.
  - repeat constructor.
  - reflexivity.
Defined.

(** ** The log file name *)

Lemma append_assoc (s t u : string) : (s +:+ t) +:+ u = s +:+ (t +:+ u).
Proof.
  induction s as [|c s IH]; [done |]. by rewrite !append_cons, IH.
Qed.

(** X11: outside the documentation mode the log file of a session is named
    'pyRevit_' + v + '_' + u + '_' + p + '.log'; in the documentation mode,
    where the prefix is [None], it is named 'None.log'. *)
Theorem log_file_name_follows_prefix (h : HostApplication) :
  (prefixes ← file_prefixes false h;
   FILE_LOG_FILENAME (PYREVIT_FILE_PREFIX_STAMPED prefixes))
  = Ok ("pyRevit_" +:+ version h +:+ "_" +:+ username h +:+ "_"
        +:+ str_int (proc_id h) +:+ ".log") /\
  (prefixes ← file_prefixes true h;
   FILE_LOG_FILENAME (PYREVIT_FILE_PREFIX_STAMPED prefixes))
  = Ok "None.log".
Proof.
  split; [| done].
  unfold file_prefixes, PYREVIT_ADDON_NAME, FILE_LOG_FILENAME.
  generalize (username h) (version h) (str_int (proc_id h)).
  intros u v p. string_simpl.
  cbn [mbind result_bind PYREVIT_FILE_PREFIX_STAMPED default].
  do 8 f_equal. by rewrite append_cons, !append_assoc, !append_cons, !append_assoc.
Qed.

(** ** Messages *)

Lemma encode_ascii_ignore_ascii (s : string) : all_ascii (encode_ascii_ignore s).
Proof.
  induction s as [|c s IH]; simpl; [done |].
  destruct (is_ascii c) eqn:Hc; simpl; auto.
Qed.

Lemma encode_ascii_ignore_id (s : string) :
  all_ascii s -> encode_ascii_ignore s = s.
Proof.
  induction s as [|c s IH]; simpl; [done |]. intros [-> Hs]. by rewrite IH.
Qed.

Lemma replace_sep_ascii (s : string) :
  all_ascii s -> all_ascii (replace os_path_sep "/" s).
Proof.
  induction s as [|c s IH]; simpl; [done |]. intros [Hc Hs].
  destruct (Ascii.eqb c os_path_sep); rewrite ?append_cons, ?append_nil; simpl; auto.
Qed.

Lemma replace_sep_free (s : string) :
  ~ occurs os_path_sep (replace os_path_sep "/" s).
Proof.
  induction s as [|c s IH]; simpl; [tauto |].
  destruct (Ascii.eqb_spec c os_path_sep) as [->|Hne];
    rewrite ?append_cons, ?append_nil; simpl; [| tauto].
  intros [Heq | Hin]; [discriminate | tauto].
Qed.

Lemma replace_sep_id (s : string) :
  ~ occurs os_path_sep s -> replace os_path_sep "/" s = s.
Proof.
  induction s as [|c s IH]; simpl; [done |]. intros Hfree.
  destruct (Ascii.eqb_spec c os_path_sep) as [->|Hne]; [tauto |].
  rewrite IH; tauto.
Qed.

Lemma encode_ascii_ignore_length (s : string) :
  (String.length (encode_ascii_ignore s) <= String.length s)%nat.
Proof.
  induction s as [|c s IH]; simpl; [lia |].
  destruct (is_ascii c); simpl; lia.
Qed.

Lemma replace_sep_length (s : string) :
  String.length (replace os_path_sep "/" s) = String.length s.
Proof.
  induction s as [|c s IH]; simpl; [done |].
  destruct (Ascii.eqb c os_path_sep); rewrite ?append_cons, ?append_nil; simpl; lia.
Qed.

(** X12: the message that [_log] hands to [emojize] is pure ASCII and free
    of backslashes, it is never longer than the original, a message that is
    already so is left alone, and cleaning twice is cleaning once. *)
Theorem clean_message_is_ascii_without_backslash (msg_str : string) :
  all_ascii (clean_message msg_str) /\
  ~ occurs os_path_sep (clean_message msg_str) /\
  (String.length (clean_message msg_str) <= String.length msg_str)%nat /\
  (all_ascii msg_str -> ~ occurs os_path_sep msg_str ->
   clean_message msg_str = msg_str) /\
  clean_message (clean_message msg_str) = clean_message msg_str.
Proof.
  assert (Hid : forall s, all_ascii s -> ~ occurs os_path_sep s ->
                          clean_message s = s).
  { intros s Hascii Hfree. unfold clean_message.
    rewrite encode_ascii_ignore_id by done. by apply replace_sep_id. }
  assert (Hascii : all_ascii (clean_message msg_str)).
  { apply replace_sep_ascii, encode_ascii_ignore_ascii. }
  assert (Hfree : ~ occurs os_path_sep (clean_message msg_str)).
  { apply replace_sep_free. }
  split; [done |]. split; [done |]. split.
  { unfold clean_message. rewrite replace_sep_length.
    apply encode_ascii_ignore_length. }
  split; [apply Hid | by apply Hid].
Qed.

Section LogProperties.
Context `{Coreutils}.

(** [_log] fails only when [str(msg)] fails, with that exception;
    otherwise the call it makes keeps the level and the arguments, carries
    neither [exc_info] nor [extra] whatever the caller passed, and its
    message went through [prepare_html_str] exactly when the level is
    [INFO]. *)
Lemma _log_forwards_cleaned_message
    (lvl : Z) (msg : PyVal) (arguments : list PyVal)
    (exc_info extra : option string) :
  (forall e, py_str msg = Raise e ->
             _log lvl msg arguments exc_info extra = Raise e) /\
  (forall msg_str, py_str msg = Ok msg_str ->
     exists c,
       _log lvl msg arguments exc_info extra = Ok c /\
       call_level c = lvl /\ call_args c = arguments /\
       call_exc_info c = None /\ call_extra c = None /\
       (lvl = INFO ->
        call_msg c = prepare_html_str (emojize (clean_message msg_str))) /\
       (lvl <> INFO -> call_msg c = emojize (clean_message msg_str))).
Proof.
  unfold _log. split.
  - by intros e ->.
  - intros msg_str ->. cbn [mbind result_bind]. eexists. split; [done |].
    cbn [call_level call_args call_exc_info call_extra call_msg].
    repeat split.
    + intros ->. by rewrite Z.eqb_refl.
    + intros Hne. by rewrite (proj2 (Z.eqb_neq lvl INFO) Hne).
Qed.
End LogProperties.

(** ** The effective level *)

(** X13: a logger with at least one handler has an effective level that is
    at most [CRITICAL] and at most the level of each of its handlers, and
    that is [CRITICAL] or the level of one of them; neither the logger's
    own level nor its parent has any influence. *)
Theorem getEffectiveLevel_with_handlers
    (own : Z) (first : Z) (others : list Z) (parent : option LoggerNode) :
  getEffectiveLevel (Build_LoggerNode own (first :: others) parent) <= CRITICAL /\
  (forall h, h ∈ first :: others ->
             getEffectiveLevel (Build_LoggerNode own (first :: others) parent) <= h) /\
  (getEffectiveLevel (Build_LoggerNode own (first :: others) parent) = CRITICAL \/
   getEffectiveLevel (Build_LoggerNode own (first :: others) parent)
     ∈ first :: others) /\
  (forall own' parent',
     getEffectiveLevel (Build_LoggerNode own' (first :: others) parent')
     = getEffectiveLevel (Build_LoggerNode own (first :: others) parent)).
Proof.
  assert (Heq : forall own' parent',
    getEffectiveLevel (Build_LoggerNode own' (first :: others) parent')
    = least CRITICAL (first :: others)).
  { intros own' parent'. cbn [getEffectiveLevel length].
    change (0 <? S _)%nat with true. cbv iota.
    unfold lowest_handler_level. apply lowest_handler_level_from. }
  rewrite Heq.
  destruct (least_bounds CRITICAL (first :: others)) as (H1 & H2 & H3).
  split; [done |]. split; [done |]. split; [done |].
  intros own' parent'. by rewrite Heq.
Qed.

(** X14: down a parent chain that has no handler anywhere the override
    gives what the base [logging.Logger.getEffectiveLevel] gives: the first
    non-zero logger level, [NOTSET] if there is none. *)
Theorem getEffectiveLevel_without_handlers (logger : LoggerNode) :
  Forall (fun g => node_handlers g = []) (chain logger) ->
  getEffectiveLevel logger = Logger_getEffectiveLevel logger.
Proof.
  induction logger as [lvl hs | lvl hs p IH] using LoggerNode_ind;
    cbn [chain getEffectiveLevel Logger_getEffectiveLevel].
  - intros [Hhs _]%Forall_cons. cbn [node_handlers] in Hhs. by subst hs.
  - intros [Hhs Hp]%Forall_cons. cbn [node_handlers] in Hhs. subst hs.
    cbn [length]. change (0 <? 0)%nat with false. cbv iota.
    destruct (negb (lvl =? 0)); [done | by apply IH].
Qed.

Lemma getEffectiveLevel_without_handlers_witness :
  getEffectiveLevel
    {| node_level := NOTSET; node_handlers := [];
       node_parent := Some {| node_level := INFO; node_handlers := [];
                              node_parent := None |} |}
  = Logger_getEffectiveLevel
      {| node_level := NOTSET; node_handlers := [];
         node_parent := Some {| node_level := INFO; node_handlers := [];
                                node_parent := None |} |}.
Proof.
  apply getEffectiveLevel_without_handlers.
  repeat constructor.
Defined.

(** ** Loggers and the registry, further *)

Lemma add_handler_idem (hdlr : Hndlr) (hs : list Hndlr) :
  add_handler hdlr (add_handler hdlr hs) = add_handler hdlr hs.
Proof.
  unfold add_handler at 1. rewrite decide_True; [done | apply add_handler_elem].
Qed.

Lemma add_handler_present (hdlr : Hndlr) (hs : list Hndlr) :
  hdlr ∈ hs -> add_handler hdlr hs = hs.
Proof. intros Hin. unfold add_handler. by rewrite decide_True. Qed.

Lemma configured_idem (status : bool) (l : Logger) :
  configured status (configured status l) = configured status l.
Proof.
  unfold configured. cbn [name level handlers propagate]. f_equal.
  destruct status.
  - rewrite (add_handler_present stdout_hndlr
               (add_handler file_hndlr (add_handler stdout_hndlr (handlers l))))
      by (unfold add_handler at 1;
          case_decide; [apply add_handler_elem |
                        apply elem_of_app; left; apply add_handler_elem]).
    apply add_handler_idem.
  - apply add_handler_idem.
Qed.

Lemma logging_getLogger_recorded (n : string) (w : World) :
  (n = "" /\ (logging_getLogger n w).1 = 0%nat) \/
  (n <> "" /\
   loggerDict (logging_getLogger n w).2 !! n = Some (logging_getLogger n w).1).
Proof.
  unfold logging_getLogger.
  destruct (decide (n = "")) as [Hn|Hn]; [by left | right].
  split; [done |].
  destruct (loggerDict w !! n) as [a|] eqn:Hdict; cbn [fst snd]; [done |].
  cbn [loggerDict with_loggerDict with_heap]. by rewrite lookup_insert_eq.
Qed.

Lemma logging_getLogger_found (n : string) (w : World) (a : nat) :
  (n = "" /\ a = 0%nat) \/ (n <> "" /\ loggerDict w !! n = Some a) ->
  logging_getLogger n w = (a, w).
Proof.
  unfold logging_getLogger. intros [[-> ->] | [Hn Hdict]].
  - done.
  - by rewrite decide_False, Hdict.
Qed.

Lemma logging_getLogger_frame (n : string) (w : World) :
  loggers (logging_getLogger n w).2 = loggers w /\
  FILE_LOGGING_STATUS (logging_getLogger n w).2 = FILE_LOGGING_STATUS w /\
  envvars (logging_getLogger n w).2 = envvars w /\
  RUNTIME_LOGGING_LEVEL (logging_getLogger n w).2 = RUNTIME_LOGGING_LEVEL w /\
  stdout_level (logging_getLogger n w).2 = stdout_level w /\
  file_level (logging_getLogger n w).2 = file_level w.
Proof.
  unfold logging_getLogger. case_decide; [done |].
  by destruct (loggerDict w !! n).
Qed.

(** X15: asking for the same name twice in a row gives the same logger
    object, and the second call changes nothing: no handler is attached a
    second time. *)
Theorem get_logger_twice (n : string) (w : World) :
  get_logger n (get_logger n w).2 = get_logger n w.
Proof.
  destruct (loggers w !! n) as [a|] eqn:Hreg.
  { rewrite (get_logger_hit n w a Hreg). cbn [snd].
    apply (get_logger_hit n w a Hreg). }
  rewrite (get_logger_miss n w Hreg). cbn [fst snd].
  set (a := (logging_getLogger n w).1).
  set (w1 := (logging_getLogger n w).2).
  set (w' := with_loggers ({["logger_name" := a]} ∪ loggers w)
               (with_heap (alter (configured (FILE_LOGGING_STATUS w)) a (heap w1)) w1)).
  destruct (decide (n = "logger_name")) as [-> | Hne].
  { apply get_logger_hit. unfold w'. cbn [loggers with_loggers].
    apply lookup_union_Some_l, lookup_singleton_eq. }
  assert (Hmiss' : loggers w' !! n = None).
  { unfold w'. cbn [loggers with_loggers]. apply lookup_union_None.
    split; [by apply lookup_singleton_ne | done]. }
  rewrite (get_logger_miss n w' Hmiss').
  assert (Hagain : logging_getLogger n w' = (a, w')).
  { apply logging_getLogger_found.
    destruct (logging_getLogger_recorded n w) as [[? ?] | [? ?]];
      [by left | by right]. }
  rewrite Hagain. cbn [fst snd]. f_equal.
  destruct (logging_getLogger_frame n w) as (Hloggers & Hstatus & _).
  unfold w'. unfold with_loggers, with_heap.
  cbn [envvars RUNTIME_LOGGING_LEVEL FILE_LOGGING_STATUS stdout_level
       file_level heap loggerDict loggers].
  fold w1 in Hstatus. rewrite Hstatus.
  f_equal.
  - rewrite list_alter_alter_eq. apply list_alter_ext; [| done].
    intros l _. apply configured_idem.
  - apply map_eq. intros k. rewrite !lookup_union.
    by destruct ({["logger_name" := a]} !! k), (loggers w !! k).
Qed.

(** The logger objects after a call of [get_logger] that misses the
    registry. *)
Lemma get_logger_miss_objects (n : string) (w : World) :
  wf w -> loggers w !! n = None ->
  heap (get_logger n w).2 !! (get_logger n w).1 =
    Some (configured (FILE_LOGGING_STATUS w)
            (default (fresh_logger n) (heap w !! (get_logger n w).1))) /\
  (forall b, b <> (get_logger n w).1 ->
             heap (get_logger n w).2 !! b = heap w !! b) /\
  ((is_Some (heap w !! (get_logger n w).1) /\
    loggerDict (get_logger n w).2 = loggerDict w) \/
   (heap w !! (get_logger n w).1 = None /\ n <> "" /\
    (get_logger n w).1 = length (heap w) /\
    loggerDict (get_logger n w).2 = <[n := length (heap w)]> (loggerDict w))).
Proof.
  intros Hwf Hmiss. rewrite (get_logger_miss n w Hmiss). cbn [fst snd].
  cbn [heap loggerDict with_loggers with_heap].
  rewrite list_lookup_alter_eq.
  destruct (logging_getLogger_cases n w Hwf)
    as [[-> Hlt] | (Hn & Hdict & -> & -> & ->)].
  - apply lookup_lt_is_Some in Hlt as [l Hl]. rewrite Hl. cbn.
    split; [done |]. split.
    + intros b Hb. by rewrite list_lookup_alter_ne.
    + left. split; [by eexists | done].
  - rewrite lookup_app_r, Nat.sub_diag by done.
    rewrite (lookup_ge_None_2 (heap w) (length (heap w))) by done. cbn.
    split; [done |]. split.
    + intros b Hb. rewrite list_lookup_alter_ne by done.
      destruct (decide (b < length (heap w))%nat) as [Hlt|Hge].
      * by rewrite lookup_app_l.
      * rewrite !lookup_ge_None_2; [done | lia |]. rewrite length_app. simpl. lia.
    + by right.
Qed.

Lemma get_logger_frame_fields (n : string) (w : World) :
  envvars (get_logger n w).2 = envvars w /\
  RUNTIME_LOGGING_LEVEL (get_logger n w).2 = RUNTIME_LOGGING_LEVEL w /\
  FILE_LOGGING_STATUS (get_logger n w).2 = FILE_LOGGING_STATUS w /\
  stdout_level (get_logger n w).2 = stdout_level w /\
  file_level (get_logger n w).2 = file_level w.
Proof.
  destruct (loggers w !! n) as [a|] eqn:Hreg.
  { by rewrite (get_logger_hit n w a Hreg). }
  rewrite (get_logger_miss n w Hreg). cbn [fst snd].
  destruct (logging_getLogger_frame n w) as (_ & ? & ? & ? & ? & ?).
  by cbn [envvars RUNTIME_LOGGING_LEVEL FILE_LOGGING_STATUS stdout_level
          file_level with_loggers with_heap].
Qed.

Lemma handlers_of_lookup (w : World) (a : nat) (l : Logger) :
  heap w !! a = Some l -> handlers_of w a = handlers l.
Proof. unfold handlers_of. by intros ->. Qed.

Lemma configured_shapes (status : bool) (l : Logger) :
  handlers l = [] \/ handlers l = [stdout_hndlr] \/
  handlers l = [stdout_hndlr; file_hndlr] ->
  handlers (configured status l) = [stdout_hndlr] \/
  handlers (configured status l) = [stdout_hndlr; file_hndlr].
Proof.
  cbn [configured handlers].
  intros [-> | [-> | ->]]; destruct status; vm_compute; auto.
Qed.

Lemma tidy_import (params : ExecParams) (env : gmap string bool) :
  tidy (import_logger params env).
Proof.
  split; cbn [import_logger heap loggerDict file_level RUNTIME_LOGGING_LEVEL].
  - intros [|[|a]]; by left.
  - intros [|[|a]] l; [by intros [= <-] | done | done].
  - intros [|[|a]] l; [by intros [= <-] | done | done].
  - intros n a Hn. by rewrite lookup_empty in Hn.
  - done.
  - unfold runtime_logging_level.
    destruct (doc_mode params); cbn [negb]; [auto |].
    destruct (forced_debug_mode params); [auto |].
    destruct (truthy (get_pyrevit_env_var DEBUG_ISC_NAME env)); [auto |].
    destruct (truthy (get_pyrevit_env_var VERBOSE_ISC_NAME env)); auto.
Qed.

Lemma tidy_get_logger (n : string) (w : World) :
  wf w -> tidy w -> tidy (get_logger n w).2.
Proof.
  intros Hwf Htidy.
  destruct (loggers w !! n) as [a0|] eqn:Hreg.
  { by rewrite (get_logger_hit n w a0 Hreg). }
  destruct (get_logger_miss_objects n w Hwf Hreg) as (Hat & Hother & Hkind).
  destruct (get_logger_frame_fields n w) as (_ & Hrun & _ & _ & Hfile).
  set (a := (get_logger n w).1) in *. set (w' := (get_logger n w).2) in *.
  assert (Hold : handlers (default (fresh_logger n) (heap w !! a)) = [] \/
                 handlers (default (fresh_logger n) (heap w !! a)) = [stdout_hndlr] \/
                 handlers (default (fresh_logger n) (heap w !! a))
                   = [stdout_hndlr; file_hndlr]).
  { destruct (heap w !! a) as [l|] eqn:Hl; simpl; [| by left].
    rewrite <- (handlers_of_lookup w a l Hl). apply (tidy_handlers w Htidy). }
  split.
  - intros b. destruct (decide (b = a)) as [-> | Hb].
    + rewrite (handlers_of_lookup w' a _ Hat). right.
      by apply configured_shapes.
    + unfold handlers_of. rewrite (Hother b Hb). apply (tidy_handlers w Htidy).
  - intros b l. destruct (decide (b = a)) as [-> | Hb].
    + rewrite Hat. intros [= <-]. cbn [configured level].
      destruct Hkind as [[[l0 Hl0] _] | (Hnone & _ & Ha & _)].
      * rewrite Hl0. cbn. by apply (tidy_levels w Htidy).
      * rewrite Hnone. cbn. rewrite decide_False; [done |].
        rewrite Ha. pose proof (wf_root w Hwf). lia.
    + rewrite (Hother b Hb). apply (tidy_levels w Htidy).
  - intros b l. destruct (decide (b = a)) as [-> | Hb].
    + rewrite Hat. intros [= Heq] _. by rewrite <- Heq.
    + rewrite (Hother b Hb). apply (tidy_propagate w Htidy).
  - intros m c Hm.
    assert (Hcase : (loggerDict w !! m = Some c) \/
                    (m = n /\ c = a /\ heap w !! a = None /\ n <> "" /\
                     a = length (heap w))).
    { destruct Hkind as [[_ Hd] | (Hnone & Hn & Ha & Hd)].
      - left. by rewrite <- Hd.
      - rewrite Hd in Hm. apply lookup_insert_Some in Hm as [[<- <-] | [_ Hm]].
        + right. by repeat split.
        + by left. }
    destruct Hcase as [Hm0 | (-> & -> & Hnone & Hn & Ha)].
    + destruct (tidy_names w Htidy m c Hm0) as (Hc0 & Hmne & Hname).
      split; [done |]. split; [done |].
      destruct (decide (c = a)) as [-> | Hc].
      * rewrite Hat. destruct (heap w !! a) as [l|]; [| done]. done.
      * by rewrite (Hother c Hc).
    + split; [pose proof (wf_root w Hwf); lia |]. split; [done |].
      rewrite Hat, Hnone. done.
  - rewrite Hfile. apply (tidy_file_level w Htidy).
  - rewrite Hrun. apply (tidy_runtime w Htidy).
Qed.

Lemma tidy_same_objects (w w' : World) :
  heap w' = heap w -> loggerDict w' = loggerDict w ->
  file_level w' = file_level w ->
  RUNTIME_LOGGING_LEVEL w' = RUNTIME_LOGGING_LEVEL w ->
  tidy w -> tidy w'.
Proof.
  intros Hheap Hdict Hfile Hrun [H1 H2 H3 H4 H5 H6].
  split; unfold handlers_of in *; rewrite ?Hheap, ?Hdict, ?Hfile, ?Hrun; done.
Qed.

Lemma set_first_handler_level_tidy (self : nat) (lvl : Z) (w : World) :
  tidy w ->
  file_level (set_first_handler_level self lvl w).1 = file_level w /\
  RUNTIME_LOGGING_LEVEL (set_first_handler_level self lvl w).1
    = RUNTIME_LOGGING_LEVEL w.
Proof.
  intros Htidy. unfold set_first_handler_level.
  destruct (heap w !! self) as [l|] eqn:Hl; cbn [fmap option_fmap option_map];
    [| done].
  destruct (tidy_handlers w Htidy self) as [Hs | [Hs | Hs]];
    rewrite (handlers_of_lookup w self l Hl) in Hs; rewrite Hs; done.
Qed.

Lemma reset_env_vars_fields (verbose debug : bool) (w : World) :
  heap (_reset_logger_env_vars verbose debug w) = heap w /\
  loggerDict (_reset_logger_env_vars verbose debug w) = loggerDict w /\
  loggers (_reset_logger_env_vars verbose debug w) = loggers w /\
  file_level (_reset_logger_env_vars verbose debug w) = file_level w /\
  stdout_level (_reset_logger_env_vars verbose debug w) = stdout_level w /\
  FILE_LOGGING_STATUS (_reset_logger_env_vars verbose debug w)
    = FILE_LOGGING_STATUS w /\
  RUNTIME_LOGGING_LEVEL (_reset_logger_env_vars verbose debug w)
    = RUNTIME_LOGGING_LEVEL w.
Proof. done. Qed.

Lemma tidy_set_first_handler_level (self : nat) (lvl : Z) (w : World) :
  tidy w -> tidy (set_first_handler_level self lvl w).1.
Proof.
  intros Htidy.
  destruct (set_first_handler_level_objects self lvl w) as (? & ? & _).
  destruct (set_first_handler_level_tidy self lvl w Htidy) as [? ?].
  by apply (tidy_same_objects w).
Qed.

Lemma tidy_call (c : Call) (w : World) : wf w -> tidy w -> tidy (call c w).
Proof.
  intros Hwf Htidy.
  assert (Hreset : forall verbose debug,
            tidy (_reset_logger_env_vars verbose debug w)).
  { intros verbose debug. by apply (tidy_same_objects w). }
  destruct c as [n | status | self lvl | self | self | self]; cbn [call];
    unfold set_level, set_verbose_mode, set_debug_mode, reset_level;
    try (apply wrapper_method_world; [done |]).
  - by apply tidy_get_logger.
  - by apply (tidy_same_objects w).
  - by apply tidy_set_first_handler_level.
  - apply tidy_set_first_handler_level, Hreset.
  - apply tidy_set_first_handler_level, Hreset.
  - apply tidy_set_first_handler_level, Hreset.
Qed.

Lemma reachable_tidy (w : World) : reachable w -> tidy w.
Proof.
  induction 1 as [params env | c w Hw IH]; [apply tidy_import |].
  apply tidy_call; [by apply reachable_wf | done].
Qed.

(** X16: in every world a session can reach, the handler list of a logger
    is empty, or the console handler alone, or the console handler followed
    by the file handler: no handler is ever listed twice and the console
    handler always comes first. *)
Theorem reachable_handler_lists (w : World) (logger : nat) :
  reachable w ->
  handlers_of w logger = [] \/ handlers_of w logger = [stdout_hndlr] \/
  handlers_of w logger = [stdout_hndlr; file_hndlr].
Proof. intros Hw. apply (tidy_handlers w (reachable_tidy w Hw)). Qed.

Lemma reachable_handler_lists_witness :
  handlers_of (get_logger "script" fresh_session).2 1 = [] \/
  handlers_of (get_logger "script" fresh_session).2 1 = [stdout_hndlr] \/
  handlers_of (get_logger "script" fresh_session).2 1
    = [stdout_hndlr; file_hndlr].
Proof.
  apply (reachable_handler_lists (call (CallGetLogger "script") fresh_session) 1).
  apply reachable_call, reachable_import.
Defined.

Lemma set_mode_objects (m : Mode) (self : nat) (w : World) :
  heap (set_mode m self w).1 = heap w /\
  loggerDict (set_mode m self w).1 = loggerDict w /\
  loggers (set_mode m self w).1 = loggers w.
Proof.
  destruct m; cbn [set_mode];
    unfold set_verbose_mode, set_debug_mode, reset_level;
    (apply (wrapper_method_world
              (fun w' => heap w' = heap w /\ loggerDict w' = loggerDict w /\
                         loggers w' = loggers w)); [done |]);
    match goal with
    | |- context [set_first_handler_level ?s ?l ?w0] =>
        destruct (set_first_handler_level_objects s l w0) as (-> & -> & ->)
    end; done.
Qed.

Lemma get_level_heap (logger : nat) (w w' : World) :
  heap w' = heap w -> get_level logger w' = get_level logger w.
Proof.
  intros Hheap. unfold get_level, wrapper_method.
  case_decide; [done |]. cbn [snd]. by rewrite Hheap.
Qed.

Lemma set_level_heap (self : nat) (lvl : Z) (w : World) :
  heap (set_level self lvl w).1 = heap w.
Proof.
  unfold set_level.
  apply (wrapper_method_world (fun w' => heap w' = heap w)); [done |].
  apply set_first_handler_level_objects.
Qed.

(** X18: every logger that [get_logger] hands out has [propagate] switched
    off, so its records never reach the handlers of the root logger. *)
Theorem get_logger_stops_propagation (w : World) (n : string) :
  reachable w ->
  propagate <$> heap (get_logger n w).2 !! (get_logger n w).1 = Some false.
Proof.
  intros Hw. pose proof (reachable_wf w Hw) as Hwf.
  pose proof (reachable_tidy w Hw) as Htidy.
  destruct (loggers w !! n) as [a|] eqn:Hreg.
  - rewrite (get_logger_hit n w a Hreg). cbn [fst snd].
    destruct (wf_registered w Hwf n a Hreg) as [rest Hrest].
    unfold handlers_of in Hrest.
    destruct (heap w !! a) as [l|] eqn:Hl; [| done]. cbn in Hrest |- *.
    f_equal. apply (tidy_propagate w Htidy a l Hl). by rewrite Hrest.
  - destruct (get_logger_miss_objects n w Hwf Hreg) as (-> & _). done.
Qed.

Lemma get_logger_stops_propagation_witness :
  propagate <$> heap (get_logger "script" fresh_session).2
                  !! (get_logger "script" fresh_session).1 = Some false.
Proof.
  apply (get_logger_stops_propagation fresh_session "script").
  apply reachable_import.
Defined.

Lemma get_logger_returns_named (w : World) (n : string) :
  wf w -> tidy w -> n <> "" -> n <> "logger_name" ->
  name <$> heap (get_logger n w).2 !! (get_logger n w).1 = Some n /\
  (get_logger n w).1 <> 0%nat.
Proof.
  intros Hwf Htidy Hn Hkey.
  pose proof (wf_keys w Hwf n Hkey) as Hreg.
  pose proof (tidy_get_logger n w Hwf Htidy) as Htidy'.
  destruct (logging_getLogger_recorded n w) as [[? _] | [_ Hrec]]; [done |].
  assert (Hdict : loggerDict (get_logger n w).2 !! n = Some (get_logger n w).1).
  { rewrite (get_logger_miss n w Hreg). cbn [fst snd].
    by cbn [loggerDict with_loggers with_heap]. }
  destruct (tidy_names _ Htidy' n _ Hdict) as (? & _ & ?). done.
Qed.

(** In a reachable world the logger that [get_logger] hands out for a name
    other than '' and 'logger_name' is a [LoggerWrapper] whose first
    handler is the console handler: the level methods apply to it. *)
Lemma get_logger_level_methods_apply (w : World) (n : string) :
  reachable w -> n <> "" -> n <> "logger_name" ->
  (get_logger n w).1 <> 0%nat /\
  exists others,
    handlers <$> heap (get_logger n w).2 !! (get_logger n w).1
    = Some (stdout_hndlr :: others).
Proof.
  intros Hw Hn Hkey.
  destruct (get_logger_returns_named w n (reachable_wf w Hw)
              (reachable_tidy w Hw) Hn Hkey) as [Hname Hroot].
  split; [done |].
  destruct (get_logger_first_handler w n Hw) as [others Hfirst].
  exists others. unfold handlers_of in Hfirst.
  destruct (heap (get_logger n w).2 !! (get_logger n w).1) as [l|]; [| done].
  cbn in Hfirst |- *. by rewrite Hfirst.
Qed.

(** X17: the level methods never touch the level of a logger object, so
    [get_level] does not show what [set_level] has set: in every reachable
    world it returns [NOTSET] whenever it returns, in particular for the
    logger that [get_logger] hands out for a name other than '' and
    'logger_name'; on the root logger, a [RootLogger], it raises
    [AttributeError]. *)
Theorem get_level_ignores_set_level (w : World) (self logger : nat) (lvl : Z) :
  reachable w ->
  get_level logger (set_level self lvl w).1 = get_level logger w /\
  (forall m, get_level logger (set_mode m self w).1 = get_level logger w) /\
  (forall v, get_level logger w = Ok v -> v = NOTSET /\ logger <> 0%nat) /\
  (forall n, n <> "" -> n <> "logger_name" ->
             get_level (get_logger n w).1 (get_logger n w).2 = Ok NOTSET) /\
  get_level 0 w = Raise AttributeError.
Proof.
  intros Hw. pose proof (reachable_wf w Hw) as Hwf.
  pose proof (reachable_tidy w Hw) as Htidy.
  assert (Hnotset : forall w0 a v, tidy w0 -> get_level a w0 = Ok v ->
                                   v = NOTSET /\ a <> 0%nat).
  { intros w0 a v Htidy0. unfold get_level, wrapper_method.
    case_decide as Ha; [done |]. cbn [snd].
    destruct (heap w0 !! a) as [l|] eqn:Hl; [| done]. intros [= <-].
    split; [| done]. rewrite (tidy_levels w0 Htidy0 a l Hl).
    by rewrite decide_False. }
  split; [| split; [| split; [| split]]].
  - apply get_level_heap, set_level_heap.
  - intros m. apply get_level_heap, set_mode_objects.
  - intros v. by apply Hnotset.
  - intros n Hn Hkey.
    destruct (get_logger_returns_named w n Hwf Htidy Hn Hkey) as [Hname Hroot].
    pose proof (tidy_get_logger n w Hwf Htidy) as Htidy'.
    destruct (get_level (get_logger n w).1 (get_logger n w).2) as [v|e] eqn:Hlevel.
    + by destruct (Hnotset _ _ _ Htidy' Hlevel) as [-> _].
    + exfalso. revert Hlevel. unfold get_level.
      rewrite wrapper_method_wrapper by done. cbn [snd].
      by destruct (heap (get_logger n w).2 !! (get_logger n w).1).
  - done.
Qed.

Lemma get_level_ignores_set_level_witness :
  get_level 1 (set_level 1 DEBUG (get_logger "script" fresh_session).2).1
  = get_level 1 (get_logger "script" fresh_session).2.
Proof.
  apply (get_level_ignores_set_level
           (call (CallGetLogger "script") fresh_session) 1 1 DEBUG).
  apply reachable_call, reachable_import.
Defined.

(** X19: for a name that is neither empty nor 'logger_name', [get_logger]
    hands out a logger of that name which is not the root logger; and two
    such names that differ get two different logger objects. *)
Theorem get_logger_names (w : World) (n m : string) :
  reachable w ->
  n <> "" -> n <> "logger_name" -> m <> "" -> m <> "logger_name" ->
  name <$> heap (get_logger n w).2 !! (get_logger n w).1 = Some n /\
  (get_logger n w).1 <> 0%nat /\
  (n <> m -> (get_logger m (get_logger n w).2).1 <> (get_logger n w).1).
Proof.
  intros Hw Hn Hnkey Hm Hmkey.
  pose proof (reachable_wf w Hw) as Hwf.
  pose proof (reachable_tidy w Hw) as Htidy.
  destruct (get_logger_returns_named w n Hwf Htidy Hn Hnkey) as [Hname Hroot].
  split; [done |]. split; [done |].
  intros Hnm Heq.
  pose proof (wf_get_logger n w Hwf) as Hwf'.
  pose proof (tidy_get_logger n w Hwf Htidy) as Htidy'.
  set (w' := (get_logger n w).2) in *. set (a := (get_logger n w).1) in *.
  destruct (get_logger_returns_named w' m Hwf' Htidy' Hm Hmkey) as [Hname' _].
  rewrite Heq in Hname'.
  pose proof (wf_keys w' Hwf' m Hmkey) as Hreg'.
  destruct (get_logger_miss_objects m w' Hwf' Hreg') as (Hat & _ & _).
  rewrite Heq in Hat. rewrite Hat in Hname'.
  destruct (heap w' !! a) as [l|] eqn:Hl; [| done].
  cbn in Hname, Hname'. congruence.
Qed.

Lemma get_logger_names_witness :
  name <$> heap (get_logger "script" fresh_session).2
             !! (get_logger "script" fresh_session).1 = Some "script" /\
  (get_logger "script" fresh_session).1 <> 0%nat /\
  ("script" <> "loader" ->
   (get_logger "loader" (get_logger "script" fresh_session).2).1
   <> (get_logger "script" fresh_session).1).
Proof.
  apply (get_logger_names fresh_session "script" "loader").
  - apply reachable_import.
  - discriminate.
  - discriminate.
  - discriminate.
  - discriminate.
Defined.

Lemma add_handler_grows (hdlr h : Hndlr) (hs : list Hndlr) :
  h ∈ hs -> h ∈ add_handler hdlr hs.
Proof.
  unfold add_handler. case_decide; [done |]. intros Hin.
  apply elem_of_app. by left.
Qed.

Lemma call_handlers_grow (c : Call) (w : World) (logger : nat) (h : Hndlr) :
  wf w -> h ∈ handlers_of w logger -> h ∈ handlers_of (call c w) logger.
Proof.
  intros Hwf Hin.
  assert (Hsame : forall w', heap w' = heap w ->
                             h ∈ handlers_of w' logger).
  { intros w' Hheap. unfold handlers_of in *. by rewrite Hheap. }
  destruct c as [n | status | self lvl | self | self | self]; cbn [call].
  - destruct (loggers w !! n) as [a|] eqn:Hreg.
    { by rewrite (get_logger_hit n w a Hreg). }
    destruct (decide (logger = (get_logger n w).1)) as [-> | Hne].
    + rewrite (get_logger_miss_handlers n w Hwf Hreg).
      cbn [configured handlers].
      destruct (FILE_LOGGING_STATUS w); repeat apply add_handler_grows; done.
    + by rewrite (get_logger_other_handlers n w logger Hwf Hne).
  - by apply Hsame.
  - apply Hsame. apply set_level_heap.
  - apply Hsame. apply (set_mode_objects ModeVerbose).
  - apply Hsame. apply (set_mode_objects ModeDebug).
  - apply Hsame. apply (set_mode_objects ModeReset).
Qed.

(** X20: no call of the module ever detaches a handler: a handler that a
    logger has, it keeps through every later call.  In particular the file
    handler stays after [set_file_logging(False)]. *)
Theorem handlers_are_never_removed
    (w : World) (calls : list Call) (logger : nat) (h : Hndlr) :
  reachable w ->
  h ∈ handlers_of w logger ->
  h ∈ handlers_of (foldl (fun w c => call c w) w calls) logger.
Proof.
  revert w. induction calls as [|c calls IH]; intros w Hw Hin; [done |].
  cbn [foldl]. apply IH.
  - by apply reachable_call.
  - apply call_handlers_grow; [by apply reachable_wf | done].
Qed.

Lemma handlers_are_never_removed_witness :
  stdout_hndlr ∈
    handlers_of
      (foldl (fun w c => call c w) (get_logger "script" fresh_session).2
         [CallSetFileLogging false; CallGetLogger "script"; CallResetLevel 1])
      1.
Proof.
  apply (handlers_are_never_removed
           (call (CallGetLogger "script") fresh_session)).
  - apply reachable_call, reachable_import.
  - vm_compute. apply list_elem_of_here.
Defined.

Lemma call_runtime_level (c : Call) (w : World) :
  tidy w -> RUNTIME_LOGGING_LEVEL (call c w) = RUNTIME_LOGGING_LEVEL w.
Proof.
  intros Htidy.
  destruct c as [n | status | self lvl | self | self | self]; cbn [call];
    unfold set_level, set_verbose_mode, set_debug_mode, reset_level;
    try (apply (wrapper_method_world
                  (fun w' => RUNTIME_LOGGING_LEVEL w' = RUNTIME_LOGGING_LEVEL w));
         [done |]);
    try done.
  - apply get_logger_frame_fields.
  - by apply set_first_handler_level_tidy.
  - by apply (set_first_handler_level_tidy self INFO
                (_reset_logger_env_vars true false w)),
             (tidy_same_objects w).
  - by apply (set_first_handler_level_tidy self DEBUG
                (_reset_logger_env_vars false true w)),
             (tidy_same_objects w).
  - by apply (set_first_handler_level_tidy self _
                (_reset_logger_env_vars false false w)),
             (tidy_same_objects w).
Qed.

(** X21: throughout a session the file handler stays at [DEBUG], since the
    level methods only ever reach the console handler; and the runtime
    logging level is one of [DEBUG], [INFO] and [WARNING] and is the same
    after every call as before. *)
Theorem file_level_and_runtime_level_are_fixed (w : World) :
  reachable w ->
  file_level w = DEBUG /\
  (RUNTIME_LOGGING_LEVEL w = DEBUG \/ RUNTIME_LOGGING_LEVEL w = INFO \/
   RUNTIME_LOGGING_LEVEL w = WARNING) /\
  (forall c, RUNTIME_LOGGING_LEVEL (call c w) = RUNTIME_LOGGING_LEVEL w /\
             file_level (call c w) = DEBUG).
Proof.
  intros Hw. pose proof (reachable_tidy w Hw) as Htidy.
  split; [apply Htidy |]. split; [apply Htidy |].
  intros c. split; [by apply call_runtime_level |].
  apply (tidy_file_level _ (reachable_tidy _ (reachable_call c w Hw))).
Qed.

Lemma file_level_and_runtime_level_are_fixed_witness :
  file_level (set_level 1 CRITICAL (get_logger "script" fresh_session).2).1
  = DEBUG.
Proof.
  apply (file_level_and_runtime_level_are_fixed
           (call (CallSetLevel 1 CRITICAL)
              (call (CallGetLogger "script") fresh_session))).
  apply reachable_call, reachable_call, reachable_import.
Defined.

(** X22: [get_logger] changes no session variable, no handler level and
    neither the file-logging flag nor the runtime level; and in a reachable
    world it leaves the name, the level, the handler list and the
    [propagate] flag of every logger other than the one it hands out as
    they were. *)
Theorem get_logger_touches_one_logger (w : World) (n : string) :
  envvars (get_logger n w).2 = envvars w /\
  RUNTIME_LOGGING_LEVEL (get_logger n w).2 = RUNTIME_LOGGING_LEVEL w /\
  FILE_LOGGING_STATUS (get_logger n w).2 = FILE_LOGGING_STATUS w /\
  stdout_level (get_logger n w).2 = stdout_level w /\
  file_level (get_logger n w).2 = file_level w /\
  (reachable w ->
   forall other, other <> (get_logger n w).1 ->
     name <$> heap (get_logger n w).2 !! other = name <$> heap w !! other /\
     level <$> heap (get_logger n w).2 !! other = level <$> heap w !! other /\
     handlers <$> heap (get_logger n w).2 !! other
       = handlers <$> heap w !! other /\
     propagate <$> heap (get_logger n w).2 !! other
       = propagate <$> heap w !! other).
Proof.
  destruct (get_logger_frame_fields n w) as (? & ? & ? & ? & ?).
  repeat (split; [done |]).
  intros Hwf%reachable_wf other Hother.
  assert (Hsame : heap (get_logger n w).2 !! other = heap w !! other).
  { destruct (loggers w !! n) as [a|] eqn:Hreg.
    - by rewrite (get_logger_hit n w a Hreg).
    - by apply (get_logger_miss_objects n w Hwf Hreg). }
  by rewrite Hsame.
Qed.

Lemma get_logger_touches_one_logger_witness :
  handlers <$> heap (get_logger "loader" (get_logger "script" fresh_session).2).2
                 !! 1%nat
  = handlers <$> heap (get_logger "script" fresh_session).2 !! 1%nat.
Proof.
  destruct (get_logger_touches_one_logger
              (call (CallGetLogger "script") fresh_session) "loader")
    as (_ & _ & _ & _ & _ & Hothers).
  apply (Hothers (reachable_call _ _ (reachable_import _ _)) 1%nat).
  vm_compute. discriminate.
Defined.

(** X23: the level that [set_level] puts on the console handler through
    one [LoggerWrapper] is the effective level of every [LoggerWrapper]
    that has only the console handler, capped at [CRITICAL]; one that also
    has the file handler is capped at [DEBUG], the level of the file
    handler. *)
Theorem set_level_reaches_every_logger
    (w : World) (self other : nat) (l : Logger) (lvl : Z)
    (parent : option LoggerNode) :
  reachable w ->
  self <> 0%nat -> handlers_of w self <> [] ->
  other <> 0%nat -> heap w !! other = Some l ->
  heap (set_level self lvl w).1 !! other = Some l /\
  (handlers l = [stdout_hndlr] ->
   getEffectiveLevel (node_of (set_level self lvl w).1 l parent)
   = Z.min lvl CRITICAL) /\
  (handlers l = [stdout_hndlr; file_hndlr] ->
   getEffectiveLevel (node_of (set_level self lvl w).1 l parent)
   = Z.min lvl DEBUG).
Proof.
  intros Hw Hself Hhandlers Hother Hl. pose proof (reachable_tidy w Hw) as Htidy.
  assert (Hworld : (set_level self lvl w).1 = setLevel stdout_hndlr lvl w).
  { unfold set_level. rewrite wrapper_method_wrapper by done.
    unfold set_first_handler_level.
    destruct (tidy_handlers w Htidy self) as [Hs | [Hs | Hs]]; [done | |];
      unfold handlers_of in Hs;
      destruct (heap w !! self) as [l0|]; cbn in Hs |- *;
        try discriminate; by rewrite Hs. }
  rewrite Hworld. split; [done |].
  split; intros Hhs;
    rewrite effective_level_of_configured_logger by (by rewrite Hhs);
    rewrite Hhs; cbn [fmap list_fmap hndlr_level setLevel stdout_level file_level];
    unfold least; cbn [foldr].
  - done.
  - rewrite (tidy_file_level w Htidy). unfold DEBUG, CRITICAL. lia.
Qed.

Lemma set_level_reaches_every_logger_witness :
  getEffectiveLevel
    (node_of (set_level 1 INFO two_logger_session).1
       {| name := "loader"; level := NOTSET; handlers := [stdout_hndlr];
          propagate := false |} None)
  = Z.min INFO CRITICAL.
Proof.
  refine (proj1 (proj2 (set_level_reaches_every_logger two_logger_session 1 2
           {| name := "loader"; level := NOTSET; handlers := [stdout_hndlr];
              propagate := false |} INFO None _ _ _ _ _)) _).
  - apply (reachable_call (CallGetLogger "loader")),
          (reachable_call (CallGetLogger "script")), reachable_import.
  - discriminate.
  - vm_compute. discriminate.
  - discriminate.
  - reflexivity.
  - reflexivity.
Defined.

Lemma envvars_overwritten (v1 d1 v2 d2 : bool) (env : gmap string bool) :
  set_pyrevit_env_var DEBUG_ISC_NAME d2
    (set_pyrevit_env_var VERBOSE_ISC_NAME v2
       (set_pyrevit_env_var DEBUG_ISC_NAME d1
          (set_pyrevit_env_var VERBOSE_ISC_NAME v1 env)))
  = set_pyrevit_env_var DEBUG_ISC_NAME d2
      (set_pyrevit_env_var VERBOSE_ISC_NAME v2 env).
Proof.
  unfold set_pyrevit_env_var. apply map_eq. intros k.
  rewrite !lookup_insert. by repeat case_decide.
Qed.

Lemma set_mode_unfold (m : Mode) (self : nat) (w : World) :
  set_mode m self w =
  wrapper_method self w
    (set_first_handler_level self
       (match m with
        | ModeVerbose => INFO
        | ModeDebug => DEBUG
        | ModeReset => RUNTIME_LOGGING_LEVEL w
        end)
       (_reset_logger_env_vars
          (match m with ModeVerbose => true | _ => false end)
          (match m with ModeDebug => true | _ => false end) w)).
Proof. by destruct m. Qed.

(** X24: of two calls among [set_verbose_mode], [set_debug_mode] and
    [reset_level] on the same logger only the second one shows: the world
    and the outcome are those of the second call alone. *)
Theorem set_mode_last_wins (first second : Mode) (self : nat) (w : World) :
  set_mode second self (set_mode first self w).1 = set_mode second self w.
Proof.
  rewrite !set_mode_unfold.
  destruct (decide (self = 0%nat)) as [-> | Hself]; [done |].
  rewrite !wrapper_method_wrapper by done.
  set (l1 := match first with ModeVerbose => INFO | ModeDebug => DEBUG
                         | ModeReset => RUNTIME_LOGGING_LEVEL w end).
  set (v1 := match first with ModeVerbose => true | _ => false end).
  set (d1 := match first with ModeDebug => true | _ => false end).
  set (v2 := match second with ModeVerbose => true | _ => false end).
  set (d2 := match second with ModeDebug => true | _ => false end).
  assert (Hrun : RUNTIME_LOGGING_LEVEL
                   (set_first_handler_level self l1
                      (_reset_logger_env_vars v1 d1 w)).1
                 = RUNTIME_LOGGING_LEVEL w).
  { unfold set_first_handler_level.
    by destruct (handlers <$> heap (_reset_logger_env_vars v1 d1 w) !! self)
      as [[|h hs]|]. }
  rewrite Hrun.
  set (l2 := match second with ModeVerbose => INFO | ModeDebug => DEBUG
                          | ModeReset => RUNTIME_LOGGING_LEVEL w end).
  unfold set_first_handler_level, _reset_logger_env_vars.
  cbn [heap with_envvars envvars].
  destruct (handlers <$> heap w !! self) as [[|h hs]|] eqn:Hh;
    cbn [fst heap with_envvars envvars setLevel]; rewrite ?Hh;
    unfold setLevel, with_envvars;
    cbn [envvars RUNTIME_LOGGING_LEVEL FILE_LOGGING_STATUS stdout_level
         file_level heap loggerDict loggers];
    rewrite envvars_overwritten; try done.
  by destruct h.
Qed.

(** X25: on a [LoggerWrapper] without handlers every level method raises
    [IndexError]: [set_level] has then changed nothing, the three mode
    methods have left both handler levels alone but have written the
    session variables before failing.  On the root logger, which is no
    [LoggerWrapper], every level method raises [AttributeError] and nothing
    at all is written. *)
Theorem level_methods_without_handlers (w : World) (self : nat) (lvl : Z) :
  (self <> 0%nat -> handlers <$> heap w !! self = Some [] ->
   set_level self lvl w = (w, Raise IndexError) /\
   (forall m, (set_mode m self w).2 = Raise IndexError /\
              stdout_level (set_mode m self w).1 = stdout_level w /\
              file_level (set_mode m self w).1 = file_level w) /\
   get_pyrevit_env_var DEBUG_ISC_NAME (envvars (set_debug_mode self w).1)
     = Some true /\
   get_pyrevit_env_var VERBOSE_ISC_NAME (envvars (set_verbose_mode self w).1)
     = Some true) /\
  set_level 0 lvl w = (w, Raise AttributeError) /\
  (forall m, set_mode m 0 w = (w, Raise AttributeError)).
Proof.
  split; [| split; [done | by intros []]].
  intros Hself Hnone.
  assert (Hstep : forall verbose debug l,
    set_first_handler_level self l (_reset_logger_env_vars verbose debug w)
    = (_reset_logger_env_vars verbose debug w, Raise IndexError)).
  { intros verbose debug l. unfold set_first_handler_level.
    cbn [_reset_logger_env_vars heap with_envvars]. by rewrite Hnone. }
  split; [| split; [| split]].
  - unfold set_level. rewrite wrapper_method_wrapper by done.
    unfold set_first_handler_level. by rewrite Hnone.
  - intros m. rewrite set_mode_unfold, wrapper_method_wrapper, Hstep by done.
    done.
  - unfold set_debug_mode. rewrite wrapper_method_wrapper by done.
    cbv zeta. rewrite Hstep. apply envvars_after_reset.
  - unfold set_verbose_mode. rewrite wrapper_method_wrapper by done.
    cbv zeta. rewrite Hstep. apply envvars_after_reset.
Qed.

Lemma level_methods_without_handlers_witness :
  set_level 1 DEBUG bare_wrapper_session
  = (bare_wrapper_session, Raise IndexError).
Proof.
  apply (proj1 (level_methods_without_handlers bare_wrapper_session 1 DEBUG)).
  - discriminate.
  - reflexivity.
Defined.

(** X26: for a name that [logging] does not know yet, [get_logger] adds
    exactly one logger object: it carries that name, the level [NOTSET],
    [propagate] off, and the console handler, followed by the file handler
    exactly when file logging is switched on at that moment. *)
Theorem get_logger_creates_one_logger (w : World) (n : string) :
  n <> "" -> loggerDict w !! n = None -> loggers w !! n = None ->
  (get_logger n w).1 = length (heap w) /\
  length (heap (get_logger n w).2) = S (length (heap w)) /\
  heap (get_logger n w).2 !! (get_logger n w).1 =
    Some {| name := n; level := NOTSET;
            handlers := if FILE_LOGGING_STATUS w
                        then [stdout_hndlr; file_hndlr] else [stdout_hndlr];
            propagate := false |} /\
  loggerDict (get_logger n w).2 !! n = Some (length (heap w)).
Proof.
  intros Hn Hdict Hreg. rewrite (get_logger_miss n w Hreg).
  unfold logging_getLogger. rewrite decide_False by done. rewrite Hdict.
  cbn [fst snd heap loggerDict with_loggers with_heap with_loggerDict].
  split; [done |]. split; [| split].
  - rewrite length_alter, length_app. simpl. lia.
  - rewrite list_lookup_alter_eq, lookup_app_r by done.
    rewrite Nat.sub_diag. cbn. by destruct (FILE_LOGGING_STATUS w).
  - apply lookup_insert_eq.
Qed.

Lemma get_logger_creates_one_logger_witness :
  (get_logger "script" fresh_session).1 = length (heap fresh_session) /\
  length (heap (get_logger "script" fresh_session).2)
    = S (length (heap fresh_session)) /\
  heap (get_logger "script" fresh_session).2
    !! (get_logger "script" fresh_session).1 =
    Some {| name := "script"; level := NOTSET;
            handlers := if FILE_LOGGING_STATUS fresh_session
                        then [stdout_hndlr; file_hndlr] else [stdout_hndlr];
            propagate := false |} /\
  loggerDict (get_logger "script" fresh_session).2 !! "script"
    = Some (length (heap fresh_session)).
Proof.
  apply (get_logger_creates_one_logger fresh_session "script").
  - discriminate.
  - reflexivity.
  - reflexivity.
Defined.
